(** * KML to GeoJSON converter: [scripts/kml_to_geojson.py]

    A shallow embedding of the converter and the proofs of its properties.

    Character model.  A Python [str] is a sequence of code points; here it
    is a [string] whose characters are the code points U+0000..U+00FF.  The
    builtins the script relies on ([str.strip], [str.split], [float]) are
    modelled on that range exactly as CPython defines them.

    Floating point.  The value of [float(s)] is a binary64 number, kept as
    a [spec_float] (sign, mantissa, exponent, or zero / infinity / NaN);
    the decimal text is rounded to nearest-even as CPython's [strtod]
    does.  No floating-point arithmetic is performed by the script. *)

From stdpp Require Import gmap strings.
From Stdlib Require Import ZArith NArith Lia Bool List Ascii String.
From Stdlib Require Import Floats.SpecFloat Sorting.Sorted DecimalString.
Import ListNotations.

Local Open Scope string_scope.
Local Open Scope list_scope.

(** String concatenation computes under [simpl], as the list one does. *)
#[local] Arguments String.append !s1 s2.

(* ===================================================================== *)
(** * The Python builtins used by the script                              *)
(* ===================================================================== *)

Module PyStr.

(** Code point of a character. *)
Definition code (c : ascii) : N := N_of_ascii c.

(** [str.isspace] on one character ([Py_UNICODE_ISSPACE]): TAB..CR,
    FS..US, SPACE, and in the upper half NEL (U+0085) and NBSP
    (U+00A0). *)
Definition is_space (c : ascii) : bool :=
  let n := code c in
  ((9 <=? n) && (n <=? 13) || (28 <=? n) && (n <=? 32)
   || (n =? 133) || (n =? 160))%N.

(** Python truthiness of a [str]: non-empty. *)
Definition truthy (s : string) : bool :=
  match s with EmptyString => false | String _ _ => true end.

(** [s + c] for a single character. *)
Definition snoc (s : string) (c : ascii) : string :=
  s ++ String c EmptyString.

Fixpoint lstrip (s : string) : string :=
  match s with
  | EmptyString => EmptyString
  | String c s' => if is_space c then lstrip s' else s
  end.

Fixpoint rstrip (s : string) : string :=
  match s with
  | EmptyString => EmptyString
  | String c s' =>
      match rstrip s' with
      | EmptyString => if is_space c then EmptyString
                       else String c EmptyString
      | r => String c r
      end
  end.

(** [s.strip()] with no argument. *)
Definition strip (s : string) : string := rstrip (lstrip s).

(** [s.split()] with no argument: maximal runs of non-whitespace
    characters, in order.  [cur] is the run being scanned. *)
Fixpoint split_from (cur : string) (s : string) : list string :=
  match s with
  | EmptyString => if truthy cur then [cur] else []
  | String c s' =>
      if is_space c
      then (if truthy cur then cur :: split_from EmptyString s'
            else split_from EmptyString s')
      else split_from (snoc cur c) s'
  end.

Definition split (s : string) : list string := split_from EmptyString s.

(** [s.split(sep)] for a one-character separator: the fields between
    the separators, empty fields included. *)
Fixpoint split_sep_from (sep : ascii) (cur : string) (s : string)
  : list string :=
  match s with
  | EmptyString => [cur]
  | String c s' =>
      if Ascii.eqb c sep
      then cur :: split_sep_from sep EmptyString s'
      else split_sep_from sep (snoc cur c) s'
  end.

Definition split_sep (sep : ascii) (s : string) : list string :=
  split_sep_from sep EmptyString s.

(** Membership of a character in a string. *)
Fixpoint mem (c : ascii) (s : string) : bool :=
  match s with
  | EmptyString => false
  | String c' s' => Ascii.eqb c' c || mem c s'
  end.

(** No character of [s] is whitespace. *)
Fixpoint no_space (s : string) : bool :=
  match s with
  | EmptyString => true
  | String c s' => negb (is_space c) && no_space s'
  end.

End PyStr.

Module PyFloat.
Import PyStr.

(** binary64 *)
Definition prec : Z := 53.
Definition emax : Z := 1024.

Definition is_finite (x : spec_float) : bool :=
  match x with
  | S754_zero _ | S754_finite _ _ _ => true
  | S754_infinity _ | S754_nan => false
  end.

Definition is_digit (c : ascii) : bool :=
  ((48 <=? code c) && (code c <=? 57))%N.

Definition digit_val (c : ascii) : Z := Z.of_N (code c) - 48.

(** [Py_ISSPACE]: the C locale's whitespace. *)
Definition c_isspace (c : ascii) : bool :=
  ((9 <=? code c) && (code c <=? 13) || (code c =? 32))%N.

(** [Py_TOLOWER] *)
Definition to_lower (c : ascii) : ascii :=
  if ((65 <=? code c) && (code c <=? 90))%N
  then ascii_of_N (code c + 32) else c.

(** [_PyUnicode_TransformDecimalAndSpaceToASCII]: an all-ASCII string is
    kept; otherwise whitespace becomes a space and the first other
    character at or above U+007F becomes ['?'] and ends the string (no
    character of U+0080..U+00FF is a decimal digit). *)
Fixpoint is_ascii (s : string) : bool :=
  match s with
  | EmptyString => true
  | String c s' => (code c <? 128)%N && is_ascii s'
  end.

Fixpoint transform_non_ascii (s : string) : string :=
  match s with
  | EmptyString => EmptyString
  | String c s' =>
      if (code c <? 127)%N then String c (transform_non_ascii s')
      else if is_space c then String " " (transform_non_ascii s')
      else "?"
  end.

Definition to_ascii (s : string) : string :=
  if is_ascii s then s else transform_non_ascii s.

(** [_Py_string_to_number_with_underscores]: an underscore is legal only
    between two digits and is removed; [prev] is the previous character
    (NUL at the start). *)
Fixpoint drop_underscores (prev : ascii) (s : string) : option string :=
  match s with
  | EmptyString => if Ascii.eqb prev "_" then None else Some EmptyString
  | String c s' =>
      if Ascii.eqb c "_"
      then (if is_digit prev then drop_underscores c s' else None)
      else if Ascii.eqb prev "_" && negb (is_digit c) then None
           else option_map (String c) (drop_underscores c s')
  end.

Definition without_underscores (s : string) : option string :=
  if mem "_" s then drop_underscores zero s else Some s.

(** The whitespace [float_from_string_inner] removes at both ends. *)
Fixpoint c_lstrip (s : string) : string :=
  match s with
  | EmptyString => EmptyString
  | String c s' => if c_isspace c then c_lstrip s' else s
  end.

Fixpoint c_rstrip (s : string) : string :=
  match s with
  | EmptyString => EmptyString
  | String c s' =>
      match c_rstrip s' with
      | EmptyString => if c_isspace c then EmptyString
                       else String c EmptyString
      | r => String c r
      end
  end.

(** Longest prefix of decimal digits, and what follows it. *)
Fixpoint span_digits (s : string) : string * string :=
  match s with
  | EmptyString => (EmptyString, EmptyString)
  | String c s' =>
      if is_digit c
      then let '(d, r) := span_digits s' in (String c d, r)
      else (EmptyString, s)
  end.

(** Value of a digit string, continuing from [acc]. *)
Fixpoint digits_value (acc : Z) (s : string) : Z :=
  match s with
  | EmptyString => acc
  | String c s' => digits_value (10 * acc + digit_val c) s'
  end.

(** An optional sign: [true] for ['-']. *)
Definition take_sign (s : string) : bool * string :=
  match s with
  | String "-" s' => (true, s')
  | String "+" s' => (false, s')
  | _ => (false, s)
  end.

(** The binary64 number nearest to [m * 10^e10] (ties to even) with
    sign [neg], for [0 <= m]: overflow gives an infinity, underflow a
    subnormal or a zero. *)
Definition of_decimal (neg : bool) (m : Z) (e10 : Z) : spec_float :=
  match m with
  | Zpos p =>
      if (0 <=? e10)%Z
      then match (m * 10 ^ e10)%Z with
           | Zpos q => binary_round prec emax neg q 0
           | _ => S754_zero neg
           end
      else let '(q, e, l) :=
             SFdiv_core_binary prec emax m 0 (10 ^ (- e10))%Z 0 in
           binary_round_aux prec emax neg q e l
  | _ => S754_zero neg
  end.

(** The exponent part [e|E [sign] digits] when the whole of [s] is one;
    the empty string is exponent 0. *)
Definition parse_exponent (s : string) : option Z :=
  match s with
  | EmptyString => Some 0%Z
  | String c s' =>
      if Ascii.eqb (to_lower c) "e"
      then let '(eneg, s1) := take_sign s' in
           match span_digits s1 with
           | (String _ _ as ds, EmptyString) =>
               let e := digits_value 0 ds in
               Some (if eneg then (- e)%Z else e)
           | _ => None
           end
      else None
  end.

(** [_Py_dg_strtod] on an unsigned text that must be consumed whole:
    digits, an optional point and digits (one digit at least), an
    optional exponent. *)
Definition parse_decimal (neg : bool) (s : string) : option spec_float :=
  let '(ip, r1) := span_digits s in
  let '(fp, r2) :=
    match r1 with
    | String "." r => span_digits r
    | _ => (EmptyString, r1)
    end in
  if truthy ip || truthy fp
  then match parse_exponent r2 with
       | Some e =>
           Some (of_decimal neg (digits_value 0 (ip ++ fp))
                            (e - Z.of_nat (String.length fp)))
       | None => None
       end
  else None.

(** [case_insensitive_match]: [t] (lower case) is a prefix of [s] up to
    case; returns the rest of [s]. *)
Fixpoint ci_match (t s : string) : option string :=
  match t with
  | EmptyString => Some s
  | String ct t' =>
      match s with
      | String cs s' =>
          if Ascii.eqb (to_lower cs) ct then ci_match t' s' else None
      | EmptyString => None
      end
  end.

(** [_Py_parse_inf_or_nan] on an unsigned text that must be consumed
    whole. *)
Definition parse_inf_or_nan (neg : bool) (s : string)
  : option spec_float :=
  match ci_match "inf" s with
  | Some r =>
      let r' := match ci_match "inity" r with Some r2 => r2 | None => r end in
      if truthy r' then None else Some (S754_infinity neg)
  | None =>
      match ci_match "nan" s with
      | Some EmptyString => Some S754_nan
      | _ => None
      end
  end.

(** [float_from_string_inner]: strip, then the text is a decimal number
    or else an infinity or a NaN ([_PyOS_ascii_strtod] tries the second
    only when the first consumed nothing), and in both cases all of it
    must have been consumed. *)
Definition from_string_inner (s : string) : option spec_float :=
  let body := c_rstrip (c_lstrip s) in
  let '(neg, u) := take_sign body in
  match parse_decimal neg u with
  | Some x => Some x
  | None => parse_inf_or_nan neg u
  end.

(** [float(s)] for a [str] argument; [None] is [ValueError]. *)
Definition float (s : string) : option spec_float :=
  match without_underscores (to_ascii s) with
  | Some t => from_string_inner t
  | None => None
  end.

End PyFloat.

Import PyStr PyFloat.

(** Python dictionaries with [str] keys, in insertion order: assigning to
    a key that is present keeps its position. *)
Module PyDict.

Definition dict (V : Type) : Type := list (string * V).

Fixpoint get {V} (d : dict V) (k : string) : option V :=
  match d with
  | [] => None
  | (k', v) :: d' => if String.eqb k' k then Some v else get d' k
  end.

Fixpoint set {V} (d : dict V) (k : string) (v : V) : dict V :=
  match d with
  | [] => [(k, v)]
  | (k', v') :: d' =>
      if String.eqb k' k then (k, v) :: d' else (k', v') :: set d' k v
  end.

Definition keys {V} (d : dict V) : list string := List.map fst d.

End PyDict.

(** [xml.etree.ElementTree]: the element tree and the searches the script
    performs on it. *)
Module ET.

(** An element: its qualified tag, its attributes, the text before its
    first child ([None] when there is none) and its children in
    document order. *)
#[warnings="-register-all"]
Inductive Element : Type :=
  mkElement (tag : string) (attrib : PyDict.dict string)
            (text : option string) (children : list Element).

Definition tag (e : Element) : string :=
  match e with mkElement t _ _ _ => t end.
Definition attrib (e : Element) : PyDict.dict string :=
  match e with mkElement _ a _ _ => a end.
Definition text (e : Element) : option string :=
  match e with mkElement _ _ x _ => x end.
Definition children (e : Element) : list Element :=
  match e with mkElement _ _ _ cs => cs end.

Definition has_tag (t : string) (e : Element) : bool :=
  String.eqb (tag e) t.

(** [e.get(key)] *)
Definition get (e : Element) (key : string) : option string :=
  PyDict.get (attrib e) key.

(** [e.findall(t)] for a path that is a plain qualified tag: the
    children of [e] with that tag. *)
Definition findall (e : Element) (t : string) : list Element :=
  List.filter (has_tag t) (children e).

(** [e.find(t)]: the first of them. *)
Definition find (e : Element) (t : string) : option Element :=
  List.head (findall e t).

(** [e.iter(t)]: [e] itself when its tag is [t], then the same for
    each child in turn. *)
Fixpoint iter (t : string) (e : Element) : list Element :=
  match e with
  | mkElement _ _ _ cs =>
      (if has_tag t e then [e] else []) ++ List.flat_map (iter t) cs
  end.

(** [e.findall('.//' + t)]: the elements of [e.iter(t)] other than [e]
    itself, which are those the children yield. *)
Definition findall_desc (e : Element) (t : string) : list Element :=
  List.flat_map (iter t) (children e).

(** [e.find('.//' + t)] *)
Definition find_desc (e : Element) (t : string) : option Element :=
  List.head (findall_desc e t).

End ET.

Import ET.

(* ===================================================================== *)
(** * The script                                                          *)
(* ===================================================================== *)

Definition KML_NS : string := "{http://www.opengis.net/kml/2.2}".

(** A coordinate pair is the Python list [[lon, lat]]. *)
Definition Position : Type := list spec_float.

(** The three geometry dictionaries the script builds, with the value of
    their ['coordinates'] entry. *)
Inductive Geometry : Type :=
| Point (coordinates : Position)
| LineString (coordinates : list Position)
| Polygon (coordinates : list (list Position)).

(** The dictionary [{'type': 'Feature', 'properties': ..., 'geometry': ...}]. *)
Record Feature : Type := mkFeature {
  properties : PyDict.dict string;
  geometry : Geometry
}.

(** The dictionary [{'type': 'FeatureCollection', 'features': ...}]. *)
Record FeatureCollection : Type := mkFeatureCollection {
  features : list Feature
}.

(** One round of the loop of [parse_coordinates]: [part] is a token and
    [coords] the list built so far. *)
Definition parse_part (coords : list Position) (part : string)
  : list Position :=
  let parts := List.filter truthy (split_sep "," part) in
  match parts with
  | p0 :: p1 :: _ =>
      match float p0 with
      | Some lon =>
          match float p1 with
          | Some lat => coords ++ [[lon; lat]]
          | None => coords
          end
      | None => coords
      end
  | _ => coords
  end.

(** [parse_coordinates(text)]; [text] is [None] or a string. *)
Definition parse_coordinates (text : option string) : list Position :=
  match text with
  | None => []
  | Some t =>
      if truthy t
      then List.fold_left parse_part (split (strip t)) []
      else []
  end.

(** [if el is not None and el.text: props[key] = el.text.strip()] *)
Definition set_from_child (props : PyDict.dict string) (key : string)
    (el : option Element) : PyDict.dict string :=
  match el with
  | Some e =>
      match text e with
      | Some t => if truthy t then PyDict.set props key (strip t) else props
      | None => props
      end
  | None => props
  end.

(** One round of the loop over the [Data] elements. *)
Definition set_from_data (props : PyDict.dict string) (data : Element)
  : PyDict.dict string :=
  let key := get data "name" in
  let value_el := find data (KML_NS ++ "value") in
  match key with
  | Some k =>
      if truthy k
      then PyDict.set props k
             match value_el with
             | Some v =>
                 match text v with
                 | Some t => if truthy t then strip t else EmptyString
                 | None => EmptyString
                 end
             | None => EmptyString
             end
      else props
  | None => props
  end.

(** The first half of [placemark_to_feature]: the dictionary [props]. *)
Definition placemark_properties (pm : Element) : PyDict.dict string :=
  let name_el := find pm (KML_NS ++ "name") in
  let desc_el := find pm (KML_NS ++ "description") in
  let style_el := find pm (KML_NS ++ "styleUrl") in
  let props := [] in
  let props := set_from_child props "name" name_el in
  let props := set_from_child props "description" desc_el in
  let props := set_from_child props "styleUrl" style_el in
  match find pm (KML_NS ++ "ExtendedData") with
  | Some ed =>
      List.fold_left set_from_data (findall ed (KML_NS ++ "Data")) props
  | None => props
  end.

(** [el.find(KML_NS + 'coordinates').text] when that child exists, and
    [''] otherwise. *)
Definition coords_text (el : Element) : option string :=
  match find el (KML_NS ++ "coordinates") with
  | Some c => text c
  | None => Some EmptyString
  end.

(** [bool(l)] for a list. *)
Definition nonempty {A} (l : list A) : bool :=
  match l with [] => false | _ :: _ => true end.

(** [placemark_to_feature(pm)]; [None] is the final [return None].  The
    three probes are bound innermost first, so that each one that does
    not return falls through to the next. *)
Definition placemark_to_feature (pm : Element) : option Feature :=
  let props := placemark_properties pm in
  let from_polygon :=
    match find_desc pm (KML_NS ++ "Polygon") with
    | Some polygon =>
        match find_desc polygon (KML_NS ++ "outerBoundaryIs") with
        | Some outer =>
            let coords_el := find_desc outer (KML_NS ++ "coordinates") in
            let coords :=
              parse_coordinates
                match coords_el with
                | Some c => text c
                | None => Some EmptyString
                end in
            if nonempty coords
            then Some (mkFeature props (Polygon [coords]))
            else None
        | None => None
        end
    | None => None
    end in
  let from_linestring :=
    match find_desc pm (KML_NS ++ "LineString") with
    | Some linestring =>
        let coords := parse_coordinates (coords_text linestring) in
        if nonempty coords
        then Some (mkFeature props (LineString coords))
        else from_polygon
    | None => from_polygon
    end in
  match find_desc pm (KML_NS ++ "Point") with
  | Some point =>
      let coords := parse_coordinates (coords_text point) in
      match coords with
      | c0 :: _ => Some (mkFeature props (Point c0))
      | [] => from_linestring
      end
  | None => from_linestring
  end.

(** The loop of [convert]: the list [features] after the [Placemark]
    elements below [root] have been mapped.  A feature is a dictionary
    with three keys, so [if feat:] only tests [feat] against [None]. *)
Definition collect (features : list Feature) (pm : Element) : list Feature :=
  match placemark_to_feature pm with
  | Some feat => features ++ [feat]
  | None => features
  end.

Definition convert_features (root : Element) : list Feature :=
  List.fold_left collect (findall_desc root (KML_NS ++ "Placemark")) [].

(** [convert(in_path, out_path)] on a file system that maps the paths of
    the files that can be read to their content.  The XML parser and the
    JSON writer are the standard library's and are taken as given:
    [ET_parse] maps the content of a file to the root of its tree, or to
    [None] when the content is not well-formed; [json_dump] maps a
    collection to the text written.

    The exceptions that leave [convert]: the input cannot be opened, its
    content is not well-formed, the output cannot be opened or the write
    to it fails. *)
Inductive Error : Type := InputError | ParseError | OutputError.

(** What the system does with
    [with open(out_path, 'w', ...) as f: json.dump(fc, f, ...)]:
    [open] raises and no file is created or changed; or the file is
    opened, which empties it, and an error ends the write, the file
    holding [remains] from then on; or the text is written in full. *)
Inductive WriteResult : Type :=
| CannotOpen
| Interrupted (remains : string)
| Written.

Section Convert.
Variable ET_parse : string -> option Element.
Variable json_dump : FeatureCollection -> string.

(** The fate of the write of a text at a path. *)
Variable write_outcome : string -> string -> WriteResult.

(** The result is the file system after the call, with the number
    returned or the exception raised. *)
Definition convert (in_path out_path : string) (fs : gmap string string)
  : gmap string string * (Error + nat) :=
  match fs !! in_path with
  | None => (fs, inl InputError)
  | Some content =>
      match ET_parse content with
      | None => (fs, inl ParseError)
      | Some root =>
          let features := convert_features root in
          let fc := mkFeatureCollection features in
          match write_outcome out_path (json_dump fc) with
          | CannotOpen => (fs, inl OutputError)
          | Interrupted remains =>
              (<[out_path := remains]> fs, inl OutputError)
          | Written =>
              (<[out_path := json_dump fc]> fs, inr (List.length features))
          end
      end
  end.
End Convert.

(* ===================================================================== *)
(** * What the properties below speak of                                  *)
(* ===================================================================== *)

(** The non-empty comma-separated sub-fields of a token. *)
Definition fields (tok : string) : list string :=
  List.filter truthy (split_sep "," tok).

(** The pair a token stands for: it has two sub-fields at least and
    [float] accepts the first two. *)
Definition token_pair (tok : string) : option Position :=
  match fields tok with
  | f0 :: f1 :: _ =>
      match float f0, float f1 with
      | Some lon, Some lat => Some [lon; lat]
      | _, _ => None
      end
  | _ => None
  end.

(** The rule of contribution with the demand that both numbers be
    finite: the token [tok], parsed alone, yields a pair exactly when it
    has two sub-fields at least and the first two are accepted by [float]
    with finite values. *)
Definition finite_pair_rule (tok : string) : Prop :=
  parse_coordinates (Some tok) <> [] <->
  exists f0 f1 rest lon lat,
    fields tok = f0 :: f1 :: rest /\
    float f0 = Some lon /\ float f1 = Some lat /\
    is_finite lon = true /\ is_finite lat = true.

(** What a token adds to the result. *)
Definition contribution (tok : string) : list Position :=
  match token_pair tok with Some pr => [pr] | None => [] end.

(** The [Data] elements the loop of [placemark_to_feature] runs over. *)
Definition extended_data (pm : Element) : list Element :=
  match find pm (KML_NS ++ "ExtendedData") with
  | Some ed => findall ed (KML_NS ++ "Data")
  | None => []
  end.

(** The text of the first child [KML_NS + k] of [pm], trimmed, when that
    child exists and its text is not empty. *)
Definition child_text (pm : Element) (k : string) : option string :=
  match find pm (KML_NS ++ k) with
  | Some el =>
      match text el with
      | Some t => if truthy t then Some (strip t) else None
      | None => None
      end
  | None => None
  end.

(** The same when the text is to be non-empty after trimming. *)
Definition trimmed_child_text (pm : Element) (k : string) : option string :=
  match find pm (KML_NS ++ k) with
  | Some el =>
      match text el with
      | Some t => if truthy (strip t) then Some (strip t) else None
      | None => None
      end
  | None => None
  end.

(** The rule of the three text properties with the test after trimming:
    the key is there exactly when the trimmed text is non-empty, with that
    text as its value. *)
Definition trimmed_text_rule (pm : Element) (k : string) : Prop :=
  PyDict.get (placemark_properties pm) k = trimmed_child_text pm k.

(** Every key of a dictionary is a non-empty string. *)
Definition keys_truthy (props : PyDict.dict string) : Prop :=
  forall k, In k (PyDict.keys props) -> truthy k = true.

(** The coordinate sequence each probe of [placemark_to_feature] comes
    to; a probe whose search finds no element comes to the empty one. *)
Definition point_coords (pm : Element) : list Position :=
  match find_desc pm (KML_NS ++ "Point") with
  | Some point => parse_coordinates (coords_text point)
  | None => []
  end.

Definition linestring_coords (pm : Element) : list Position :=
  match find_desc pm (KML_NS ++ "LineString") with
  | Some linestring => parse_coordinates (coords_text linestring)
  | None => []
  end.

Definition polygon_coords (pm : Element) : list Position :=
  match find_desc pm (KML_NS ++ "Polygon") with
  | Some polygon =>
      match find_desc polygon (KML_NS ++ "outerBoundaryIs") with
      | Some outer =>
          match find_desc outer (KML_NS ++ "coordinates") with
          | Some c => parse_coordinates (text c)
          | None => []
          end
      | None => []
      end
  | None => []
  end.

(** One probe at least comes to a non-empty sequence. *)
Definition usable (pm : Element) : Prop :=
  point_coords pm <> [] \/ linestring_coords pm <> []
  \/ polygon_coords pm <> [].

(** The ['coordinates'] of a geometry are not empty, and no ring of a
    polygon is. *)
Definition coordinates_nonempty (g : Geometry) : bool :=
  match g with
  | Point c => nonempty c
  | LineString cs => nonempty cs
  | Polygon rings => nonempty rings && List.forallb nonempty rings
  end.

(** The priority of the point without a condition on its coordinates: a
    Placemark with a [Point] and a [LineString] below it becomes a Point
    feature. *)
Definition point_wins_rule (pm : Element) : Prop :=
  find_desc pm (KML_NS ++ "Point") <> None ->
  find_desc pm (KML_NS ++ "LineString") <> None ->
  exists props c, placemark_to_feature pm = Some (mkFeature props (Point c)).

(** ** Positions in the tree *)

(** The element at a position, which is the list of the child indices on
    the way down from [e]; the empty list is the position of [e]. *)
Fixpoint subtree_at (e : Element) (path : list nat) : option Element :=
  match path with
  | [] => Some e
  | i :: path' =>
      match nth_error (children e) i with
      | Some c => subtree_at c path'
      | None => None
      end
  end.

(** Document order on positions: an element comes before the elements
    below it, and these before its next sibling. *)
Fixpoint path_ltb (p q : list nat) : bool :=
  match p, q with
  | [], [] => false
  | [], _ :: _ => true
  | _ :: _, [] => false
  | i :: p', j :: q' => (i <? j)%nat || ((i =? j)%nat && path_ltb p' q')
  end.

Definition path_lt (p q : list nat) : Prop := path_ltb p q = true.

(** The positions of the elements [e.iter(t)] yields, in the order in
    which it yields them: [iter_paths] follows [iter], and [below_paths]
    the part of it that runs over the children from index [i] on. *)
Fixpoint iter_paths (t : string) (e : Element) : list (list nat) :=
  match e with
  | mkElement _ _ _ cs =>
      (if has_tag t e then [[]] else [])
      ++ (fix below (i : nat) (l : list Element) : list (list nat) :=
            match l with
            | [] => []
            | c :: l' => List.map (cons i) (iter_paths t c) ++ below (S i) l'
            end) 0%nat cs
  end.

Fixpoint below_paths (t : string) (i : nat) (l : list Element)
  : list (list nat) :=
  match l with
  | [] => []
  | c :: l' => List.map (cons i) (iter_paths t c) ++ below_paths t (S i) l'
  end.

(** The loop of [convert] looks at every Placemark element of the tree,
    the root included. *)
Definition visits_whole_tree (root : Element) : Prop :=
  forall path pm,
    subtree_at root path = Some pm ->
    tag pm = (KML_NS ++ "Placemark")%string ->
    In pm (findall_desc root (KML_NS ++ "Placemark")).

(** ** Sample documents *)

(** An element of the KML namespace without attributes. *)
Definition kml (t : string) (x : option string) (cs : list Element)
  : Element :=
  mkElement (KML_NS ++ t) [] x cs.

(** [<Placemark><name>A</name>
      <Point><coordinates>1.0,2.0,0</coordinates></Point></Placemark>] *)
Definition placemark_A : Element :=
  kml "Placemark" None
    [kml "name" (Some "A") [];
     kml "Point" None [kml "coordinates" (Some "1.0,2.0,0") []]].

(** A Placemark whose name is two spaces. *)
Definition placemark_blank_name : Element :=
  kml "Placemark" None
    [kml "name" (Some "  ") [];
     kml "Point" None [kml "coordinates" (Some "1.0,2.0,0") []]].

(** A Placemark with an empty [Point] and a [LineString] of two pairs. *)
Definition placemark_empty_point : Element :=
  kml "Placemark" None
    [kml "Point" None [];
     kml "LineString" None [kml "coordinates" (Some "0,0 1,1") []]].

(** A Placemark with a ring of four pairs under
    [Polygon/outerBoundaryIs/LinearRing]. *)
Definition placemark_polygon : Element :=
  kml "Placemark" None
    [kml "Polygon" None
       [kml "outerBoundaryIs" None
          [kml "LinearRing" None
             [kml "coordinates" (Some "0,0 1,0 1,1 0,0") []]]]].

(** [<Data name="pop"><value>42</value></Data>], and the same with an
    empty name and with no name. *)
Definition data_pop : Element :=
  mkElement (KML_NS ++ "Data") [("name", "pop")] None
    [kml "value" (Some "42") []].

Definition data_empty_name : Element :=
  mkElement (KML_NS ++ "Data") [("name", EmptyString)] None
    [kml "value" (Some "42") []].

Definition data_no_name : Element :=
  kml "Data" None [kml "value" (Some "42") []].

(** A document with two Placemarks at different depths, the second
    without geometry. *)
Definition document_two : Element :=
  kml "kml" None
    [kml "Document" None
       [kml "Folder" None [placemark_A];
        kml "Placemark" None
          [kml "ExtendedData" None [data_pop; data_empty_name]];
        placemark_polygon]].

(** The binary64 numbers 0, 1 and 2. *)
Definition f0 : spec_float := S754_zero false.
Definition f1 : spec_float := S754_finite false 4503599627370496 (-52).
Definition f2 : spec_float := S754_finite false 4503599627370496 (-51).

(** A string is [clean] when it has neither a comma nor a question mark:
    the two characters that [float] can meet in a sub-field without
    accepting them (the second is what it makes of an unknown
    character). *)
Definition unclean (c : ascii) : bool := Ascii.eqb c "," || Ascii.eqb c "?".

Fixpoint clean (s : string) : bool :=
  match s with
  | EmptyString => true
  | String c s' => negb (unclean c) && clean s'
  end.

(* ===================================================================== *)
(** * The entry point of the script                                       *)
(* ===================================================================== *)

(** [str(n)] for a non-negative integer. *)
Definition decimal (n : nat) : string :=
  NilEmpty.string_of_uint (Nat.to_uint n).

(** The line end [print] writes. *)
Definition newline : string := String (ascii_of_nat 10) EmptyString.

(** What a run of the script leaves behind: the text on standard output,
    the exit status of the process and the file system. *)
Record Outcome : Type := mkOutcome {
  stdout : string;
  exit_code : nat;
  files : gmap string string
}.

(** What becomes of a line given to [print]: it reaches standard output;
    or [print] raises, [shown] being what reached standard output before;
    or the line stays in the buffer and is lost when the interpreter
    flushes it at exit, which makes the exit status 120. *)
Inductive PrintResult : Type :=
| Delivered
| Raised (shown : string)
| LostAtExit (shown : string).

(** The two fixed parts of what the script prints. *)
Definition usage_line : string :=
  "Usage: kml_to_geojson.py INPUT.kml OUTPUT.geojson" ++ newline.

Definition converted_line (n : nat) (out_file : string) : string :=
  "Converted " ++ decimal n ++ " features to " ++ out_file ++ newline.

(** The block under [if __name__ == '__main__']; [argv] is [sys.argv].
    An exception that is not caught ends the run: the interpreter writes
    the traceback to standard error and exits with status 1.  Paths are
    taken as names: different paths name different files. *)
Section Main.
Variable ET_parse : string -> option Element.
Variable json_dump : FeatureCollection -> string.
Variable write_outcome : string -> string -> WriteResult.

(** [os.path.isfile] *)
Variable isfile : string -> bool.

(** The fate of a line given to [print]. *)
Variable print_result : string -> PrintResult.

(** [print(line)] and then the end of the run with [status], by
    [sys.exit] or by reaching the end of the script. *)
Definition print_then_exit (line : string) (status : nat)
    (fs : gmap string string) : Outcome :=
  match print_result line with
  | Delivered => mkOutcome line status fs
  | Raised shown => mkOutcome shown 1 fs
  | LostAtExit shown => mkOutcome shown 120 fs
  end.

Definition main (argv : list string) (fs : gmap string string) : Outcome :=
  if (List.length argv <? 3)%nat
  then print_then_exit usage_line 2 fs
  else
    let in_file := List.nth 1 argv EmptyString in
    let out_file := List.nth 2 argv EmptyString in
    if negb (isfile in_file)
    then print_then_exit ("Input file not found: " ++ in_file ++ newline)
           1 fs
    else
      match convert ET_parse json_dump write_outcome in_file out_file fs with
      | (fs', inr n) => print_then_exit (converted_line n out_file) 0 fs'
      | (fs', inl _) => mkOutcome EmptyString 1 fs'
      end.
End Main.

(* ===================================================================== *)
(** * Further notions for the properties                                  *)
(* ===================================================================== *)

(** A text of whitespace only. *)
Fixpoint blank (s : string) : bool :=
  match s with
  | EmptyString => true
  | String c s' => is_space c && blank s'
  end.

(** A string that [strip] leaves as it is. *)
Definition trimmed (v : string) : Prop := strip v = v.

(** The value a [Data] element stands for. *)
Definition data_value (data : Element) : string :=
  match find data (KML_NS ++ "value") with
  | Some v =>
      match text v with
      | Some t => if truthy t then strip t else EmptyString
      | None => EmptyString
      end
  | None => EmptyString
  end.

(** The key and the value a [Data] element assigns, when it has a name
    that is not empty. *)
Definition data_entry (data : Element) : option (string * string) :=
  match get data "name" with
  | Some k => if truthy k then Some (k, data_value data) else None
  | None => None
  end.

(** The value that the last element of [datas] named [k] assigns. *)
Fixpoint last_value (datas : list Element) (k : string) : option string :=
  match datas with
  | [] => None
  | data :: rest =>
      match last_value rest k with
      | Some v => Some v
      | None =>
          match data_entry data with
          | Some (k', v) => if String.eqb k' k then Some v else None
          | None => None
          end
      end
  end.

(** The keys the three text children set. *)
Definition text_keys : list string := ["name"; "description"; "styleUrl"].

(** All the coordinate pairs of a geometry. *)
Definition positions (g : Geometry) : list Position :=
  match g with
  | Point c => [c]
  | LineString cs => cs
  | Polygon rings => List.concat rings
  end.

(** The features of the subtree of [c], [c] included: the one of [c]
    when it is a Placemark, then those of what is below it. *)
Definition subtree_features (c : Element) : list Feature :=
  (if has_tag (KML_NS ++ "Placemark") c
   then match placemark_to_feature c with Some f => [f] | None => [] end
   else [])
  ++ convert_features c.

(** The tags of the three geometries. *)
Definition geometry_tags : list string :=
  [(KML_NS ++ "Point")%string; (KML_NS ++ "LineString")%string;
   (KML_NS ++ "Polygon")%string].

(* ===================================================================== *)
(** * Strings                                                             *)
(* ===================================================================== *)

Module PyStrFacts.

Lemma append_nil_r (s : string) : (s ++ EmptyString)%string = s.
Proof. induction s as [|c s IH]; simpl; [reflexivity | now rewrite IH]. Qed.

Lemma append_assoc (a b c : string) :
  ((a ++ b) ++ c)%string = (a ++ (b ++ c))%string.
Proof. induction a as [|x a IH]; simpl; [reflexivity | now rewrite IH]. Qed.

Lemma snoc_append (cur : string) (c : ascii) (s : string) :
  (snoc cur c ++ s)%string = (cur ++ String c s)%string.
Proof. unfold snoc. now rewrite append_assoc. Qed.

Lemma truthy_snoc (cur : string) (c : ascii) : truthy (snoc cur c) = true.
Proof. destruct cur; reflexivity. Qed.

Lemma truthy_append_cons (cur : string) (c : ascii) (s : string) :
  truthy (cur ++ String c s) = true.
Proof. destruct cur; reflexivity. Qed.

Lemma no_space_append (a b : string) :
  no_space (a ++ b) = no_space a && no_space b.
Proof.
  induction a as [|c a IH]; simpl; [reflexivity|].
  rewrite IH. now rewrite andb_assoc.
Qed.

Lemma mem_append (c : ascii) (a b : string) :
  mem c (a ++ b) = mem c a || mem c b.
Proof.
  induction a as [|x a IH]; simpl; [reflexivity|].
  rewrite IH. now rewrite orb_assoc.
Qed.

(** ** [split] *)

(** A whitespace character ends the run being scanned; the scan of what
    follows it starts anew. *)
Lemma split_from_space (cur a : string) (c : ascii) (b : string) :
  is_space c = true ->
  split_from cur (a ++ String c b)
  = split_from cur a ++ split_from EmptyString b.
Proof.
  intros Hc. revert cur.
  induction a as [|x a IH]; intros cur; simpl.
  - rewrite Hc. destruct (truthy cur); reflexivity.
  - destruct (is_space x); [destruct (truthy cur)|]; simpl;
      now rewrite IH.
Qed.

Lemma split_space (a : string) (c : ascii) (b : string) :
  is_space c = true ->
  split (a ++ String c b) = split a ++ split b.
Proof. apply split_from_space. Qed.

(** A text without whitespace is one token, or none when it is empty. *)
Lemma split_from_no_space (cur tok : string) :
  no_space tok = true ->
  split_from cur tok
  = if truthy (cur ++ tok) then [(cur ++ tok)%string] else [].
Proof.
  revert cur. induction tok as [|c tok IH]; intros cur H; simpl in *.
  - now rewrite append_nil_r.
  - apply andb_true_iff in H as [Hc Ht].
    apply negb_true_iff in Hc. rewrite Hc, (IH _ Ht).
    now rewrite snoc_append, truthy_append_cons.
Qed.

Lemma split_token (tok : string) :
  no_space tok = true -> truthy tok = true -> split tok = [tok].
Proof.
  intros H1 H2. unfold split. rewrite (split_from_no_space _ _ H1).
  simpl. now rewrite H2.
Qed.

(** Stripping changes no token. *)
Lemma split_from_lstrip (s : string) :
  split_from EmptyString (lstrip s) = split_from EmptyString s.
Proof.
  induction s as [|c s IH]; simpl; [reflexivity|].
  destruct (is_space c) eqn:Hc; simpl; [exact IH | now rewrite Hc].
Qed.

Lemma split_from_rstrip (s : string) :
  forall cur, split_from cur (rstrip s) = split_from cur s.
Proof.
  induction s as [|c s IH]; intros cur; [reflexivity|].
  simpl. destruct (rstrip s) as [|r0 r] eqn:Hr.
  - destruct (is_space c) eqn:Hc; simpl.
    + rewrite <- (IH EmptyString). simpl. reflexivity.
    + rewrite Hc, <- (IH (snoc cur c)). reflexivity.
  - simpl. destruct (is_space c) eqn:Hc.
    + rewrite <- (IH EmptyString). reflexivity.
    + rewrite <- (IH (snoc cur c)). reflexivity.
Qed.

Lemma split_strip (s : string) : split (strip s) = split s.
Proof.
  unfold split, strip. now rewrite split_from_rstrip, split_from_lstrip.
Qed.

(** Every token is non-empty and free of whitespace. *)
Lemma split_from_tokens (s : string) :
  forall cur tok, no_space cur = true ->
    In tok (split_from cur s) -> no_space tok = true /\ truthy tok = true.
Proof.
  induction s as [|c s IH]; intros cur tok Hcur; simpl.
  - destruct (truthy cur) eqn:Ht; simpl; [|tauto].
    intros [<-|[]]. now split.
  - destruct (is_space c) eqn:Hc.
    + destruct (truthy cur) eqn:Ht; simpl.
      * intros [<-|H]; [now split | now apply (IH EmptyString)].
      * now apply (IH EmptyString).
    + apply IH. unfold snoc. rewrite no_space_append, Hcur. simpl.
      now rewrite Hc.
Qed.

Lemma split_tokens (s tok : string) :
  In tok (split s) -> no_space tok = true /\ truthy tok = true.
Proof. now apply split_from_tokens. Qed.

(** ** [split(sep)] *)

Lemma split_sep_from_no_sep (sep : ascii) (a : string) :
  mem sep a = false ->
  forall cur, split_sep_from sep cur a = [(cur ++ a)%string].
Proof.
  induction a as [|c a IH]; intros H cur; simpl in *.
  - now rewrite append_nil_r.
  - apply orb_false_iff in H as [Hc Ha]. rewrite Hc, (IH Ha).
    now rewrite snoc_append.
Qed.

(** The first separator ends the first field. *)
Lemma split_sep_from_first (sep : ascii) (a b : string) :
  mem sep a = false ->
  forall cur,
    split_sep_from sep cur (a ++ String sep b)
    = (cur ++ a)%string :: split_sep sep b.
Proof.
  induction a as [|c a IH]; intros H cur; simpl in *.
  - now rewrite Ascii.eqb_refl, append_nil_r.
  - apply orb_false_iff in H as [Hc Ha]. rewrite Hc, (IH Ha).
    now rewrite snoc_append.
Qed.

Lemma split_sep_first (sep : ascii) (a b : string) :
  mem sep a = false ->
  split_sep sep (a ++ String sep b) = a :: split_sep sep b.
Proof. intros H. unfold split_sep at 1. now rewrite split_sep_from_first. Qed.

Lemma split_sep_no_sep (sep : ascii) (a : string) :
  mem sep a = false -> split_sep sep a = [a].
Proof. intros H. unfold split_sep. now rewrite split_sep_from_no_sep. Qed.

End PyStrFacts.

(* ===================================================================== *)
(** * [float] accepts no text with a comma                                *)
(* ===================================================================== *)

Module PyFloatFacts.
Import PyStrFacts.

(** Case analysis on the 256 characters. *)
Ltac each_char c :=
  destruct c as [[|] [|] [|] [|] [|] [|] [|] [|]]; try reflexivity;
  try discriminate.

Lemma digit_clean (c : ascii) : is_digit c = true -> unclean c = false.
Proof. each_char c. Qed.

Lemma c_isspace_clean (c : ascii) : c_isspace c = true -> unclean c = false.
Proof. each_char c. Qed.

Lemma lower_clean (c : ascii) :
  unclean (to_lower c) = false -> unclean c = false.
Proof. each_char c. Qed.

Lemma high_not_comma (c : ascii) :
  (code c <? 127)%N = false -> Ascii.eqb c "," = false.
Proof. each_char c. Qed.

Lemma clean_append (a b : string) : clean (a ++ b) = clean a && clean b.
Proof.
  induction a as [|c a IH]; simpl; [reflexivity|].
  rewrite IH. now rewrite andb_assoc.
Qed.

Lemma clean_no_comma (s : string) : clean s = true -> mem "," s = false.
Proof.
  induction s as [|c s IH]; simpl; [reflexivity|].
  intros [Hc Hs]%andb_true_iff. rewrite (IH Hs).
  unfold unclean in Hc. apply negb_true_iff, orb_false_iff in Hc as [-> _].
  reflexivity.
Qed.

Lemma span_digits_clean (s : string) :
  clean (snd (span_digits s)) = clean s.
Proof.
  induction s as [|c s IH]; simpl; [reflexivity|].
  destruct (is_digit c) eqn:Hd; [|reflexivity].
  destruct (span_digits s) as [d r]. simpl in *.
  now rewrite IH, (digit_clean _ Hd).
Qed.

Lemma take_sign_clean (s : string) : clean (snd (take_sign s)) = clean s.
Proof. destruct s as [|c s]; [reflexivity|]. each_char c. Qed.

Lemma ci_match_clean (t : string) :
  clean t = true ->
  forall s r, ci_match t s = Some r -> clean r = clean s.
Proof.
  induction t as [|ct t IH]; simpl; intros Ht s r H.
  - now inversion H.
  - apply andb_true_iff in Ht as [Hct Ht].
    destruct s as [|cs s]; [discriminate|].
    destruct (Ascii.eqb (to_lower cs) ct) eqn:E; [|discriminate].
    apply Ascii.eqb_eq in E. subst ct.
    simpl. rewrite (IH Ht _ _ H).
    apply negb_true_iff in Hct. now rewrite (lower_clean _ Hct).
Qed.

Lemma parse_exponent_clean (s : string) (e : Z) :
  parse_exponent s = Some e -> clean s = true.
Proof.
  destruct s as [|c s]; [reflexivity|]. simpl.
  destruct (Ascii.eqb (to_lower c) "e") eqn:E; [|discriminate].
  apply Ascii.eqb_eq in E.
  assert (Hc : unclean c = false) by (apply lower_clean; now rewrite E).
  rewrite Hc. simpl.
  rewrite <- (take_sign_clean s).
  destruct (take_sign s) as [eneg s1]. simpl.
  rewrite <- (span_digits_clean s1).
  destruct (span_digits s1) as [[|d ds] [|r rs]]; simpl;
    try discriminate.
  reflexivity.
Qed.

Lemma parse_decimal_clean (neg : bool) (s : string) (x : spec_float) :
  parse_decimal neg s = Some x -> clean s = true.
Proof.
  unfold parse_decimal.
  rewrite <- (span_digits_clean s).
  destruct (span_digits s) as [ip r1]. simpl.
  assert (Hr : forall fp r2,
             match r1 with
             | String "." r => span_digits r
             | _ => (EmptyString, r1)
             end = (fp, r2) -> clean r2 = clean r1).
  { intros fp r2. destruct r1 as [|c r]; [now intros [= _ <-]|].
    destruct (Ascii.eqb c ".") eqn:E.
    - apply Ascii.eqb_eq in E. subst c. intros H.
      pose proof (span_digits_clean r) as Hs. rewrite H in Hs.
      simpl in *. exact Hs.
    - assert (match String c r with
              | String "." r0 => span_digits r0
              | _ => (EmptyString, String c r)
              end = (EmptyString, String c r)) as ->.
      { revert E. each_char c. }
      now intros [= _ <-]. }
  destruct (match r1 with
            | String "." r => span_digits r
            | _ => (EmptyString, r1)
            end) as [fp r2] eqn:Hfp.
  rewrite <- (Hr _ _ eq_refl).
  destruct (truthy ip || truthy fp); [|discriminate].
  destruct (parse_exponent r2) as [e|] eqn:He; [|discriminate].
  intros _. now apply parse_exponent_clean in He.
Qed.

Lemma parse_inf_or_nan_clean (neg : bool) (s : string) (x : spec_float) :
  parse_inf_or_nan neg s = Some x -> clean s = true.
Proof.
  unfold parse_inf_or_nan.
  destruct (ci_match "inf" s) as [r|] eqn:Hinf.
  - rewrite <- (ci_match_clean "inf" eq_refl _ _ Hinf).
    destruct (ci_match "inity" r) as [r2|] eqn:Hinity.
    + rewrite <- (ci_match_clean "inity" eq_refl _ _ Hinity).
      destruct r2; [reflexivity | discriminate].
    + destruct r; [reflexivity | discriminate].
  - destruct (ci_match "nan" s) as [[|c r]|] eqn:Hnan; try discriminate.
    now rewrite <- (ci_match_clean "nan" eq_refl _ _ Hnan).
Qed.

Lemma c_lstrip_clean (s : string) : clean (c_lstrip s) = clean s.
Proof.
  induction s as [|c s IH]; simpl; [reflexivity|].
  destruct (c_isspace c) eqn:Hc; [|reflexivity].
  now rewrite IH, (c_isspace_clean _ Hc).
Qed.

Lemma c_rstrip_clean (s : string) : clean (c_rstrip s) = clean s.
Proof.
  induction s as [|c s IH]; simpl; [reflexivity|].
  destruct (c_rstrip s) as [|r0 r]; rewrite <- IH.
  - destruct (c_isspace c) eqn:Hc; simpl.
    + now rewrite (c_isspace_clean _ Hc).
    + reflexivity.
  - reflexivity.
Qed.

Lemma from_string_inner_clean (s : string) (x : spec_float) :
  from_string_inner s = Some x -> clean s = true.
Proof.
  unfold from_string_inner.
  rewrite <- (c_lstrip_clean s), <- (c_rstrip_clean (c_lstrip s)).
  rewrite <- (take_sign_clean (c_rstrip (c_lstrip s))).
  destruct (take_sign _) as [neg u]. simpl.
  destruct (parse_decimal neg u) as [y|] eqn:Hd.
  - intros _. now apply parse_decimal_clean in Hd.
  - apply parse_inf_or_nan_clean.
Qed.

Lemma drop_underscores_clean (s : string) :
  forall prev t, drop_underscores prev s = Some t ->
                 clean t = true -> clean s = true.
Proof.
  induction s as [|c s IH]; intros prev t; simpl; [reflexivity|].
  destruct (Ascii.eqb c "_") eqn:E.
  - apply Ascii.eqb_eq in E. subst c.
    destruct (is_digit prev); [|discriminate].
    simpl. apply IH.
  - destruct (Ascii.eqb prev "_" && negb (is_digit c)); [discriminate|].
    destruct (drop_underscores c s) as [t'|] eqn:Ht'; [|discriminate].
    intros [= <-]. simpl. intros [-> Hc]%andb_true_iff.
    simpl. now apply (IH _ _ Ht').
Qed.

Lemma without_underscores_clean (s t : string) :
  without_underscores s = Some t -> clean t = true -> clean s = true.
Proof.
  unfold without_underscores. destruct (mem "_" s).
  - apply drop_underscores_clean.
  - now intros [= <-].
Qed.

Lemma transform_non_ascii_comma (s : string) :
  clean (transform_non_ascii s) = true -> mem "," s = false.
Proof.
  induction s as [|c s IH]; simpl; [reflexivity|].
  destruct (code c <? 127)%N eqn:Hc.
  - simpl. intros [Hu Hs]%andb_true_iff.
    apply negb_true_iff, orb_false_iff in Hu as [-> _]. now apply IH.
  - rewrite (high_not_comma _ Hc). destruct (is_space c); simpl.
    + apply IH.
    + discriminate.
Qed.

Lemma to_ascii_comma (s : string) :
  clean (to_ascii s) = true -> mem "," s = false.
Proof.
  unfold to_ascii. destruct (is_ascii s).
  - apply clean_no_comma.
  - apply transform_non_ascii_comma.
Qed.

(** A text [float] accepts has no comma. *)
Lemma float_no_comma (s : string) (x : spec_float) :
  float s = Some x -> mem "," s = false.
Proof.
  unfold float.
  destruct (without_underscores (to_ascii s)) as [t|] eqn:Ht;
    [|discriminate].
  intros H. apply to_ascii_comma.
  apply (without_underscores_clean _ _ Ht).
  now apply from_string_inner_clean in H.
Qed.

(** A text [float] accepts is not empty. *)
Lemma float_truthy (s : string) (x : spec_float) :
  float s = Some x -> truthy s = true.
Proof. destruct s; [discriminate | reflexivity]. Qed.

End PyFloatFacts.

(* ===================================================================== *)
(** * The coordinate parser                                               *)
(* ===================================================================== *)

Module ParserFacts.
Import PyStrFacts PyFloatFacts.

Lemma parse_part_contribution (coords : list Position) (tok : string) :
  parse_part coords tok = coords ++ contribution tok.
Proof.
  unfold parse_part, contribution, token_pair, fields.
  destruct (List.filter truthy (split_sep "," tok)) as [|f0 [|f1 rest]];
    try now rewrite app_nil_r.
  destruct (float f0), (float f1); try now rewrite app_nil_r.
  reflexivity.
Qed.

Lemma fold_parse_part (toks : list string) :
  forall coords,
    List.fold_left parse_part toks coords
    = coords ++ List.flat_map contribution toks.
Proof.
  induction toks as [|tok toks IH]; intros coords; simpl.
  - now rewrite app_nil_r.
  - now rewrite IH, parse_part_contribution, <- app_assoc.
Qed.

Lemma flat_map_contribution (toks : list string) :
  List.flat_map contribution toks = omap token_pair toks.
Proof.
  induction toks as [|tok toks IH]; simpl; [reflexivity|].
  unfold contribution at 1. rewrite IH.
  destruct (token_pair tok); reflexivity.
Qed.

(** The parser is the token-wise map over the tokens of the text. *)
Lemma parse_coordinates_split (text : string) :
  parse_coordinates (Some text) = List.flat_map contribution (split text).
Proof.
  unfold parse_coordinates. destruct (truthy text) eqn:Ht.
  - now rewrite split_strip, fold_parse_part.
  - destruct text; [reflexivity | discriminate].
Qed.

(** A whitespace character between two texts separates their results. *)
Lemma parse_coordinates_space (a : string) (c : ascii) (b : string) :
  is_space c = true ->
  parse_coordinates (Some (a ++ String c b)%string)
  = parse_coordinates (Some a) ++ parse_coordinates (Some b).
Proof.
  intros Hc. rewrite !parse_coordinates_split, (split_space _ _ _ Hc).
  apply flat_map_app.
Qed.

Lemma parse_coordinates_token (tok : string) :
  no_space tok = true ->
  parse_coordinates (Some tok) = contribution tok.
Proof.
  intros H. rewrite parse_coordinates_split.
  unfold split. rewrite (split_from_no_space _ _ H). simpl.
  destruct tok; simpl; [reflexivity | now rewrite app_nil_r].
Qed.

Lemma token_pair_spec (tok : string) (pr : Position) :
  token_pair tok = Some pr <->
  exists f0 f1 rest lon lat,
    fields tok = f0 :: f1 :: rest /\
    float f0 = Some lon /\ float f1 = Some lat /\ pr = [lon; lat].
Proof.
  unfold token_pair. split.
  - destruct (fields tok) as [|f0 [|f1 rest]]; try discriminate.
    destruct (float f0) as [lon|] eqn:H0; [|discriminate].
    destruct (float f1) as [lat|] eqn:H1; [|discriminate].
    intros [= <-]. now exists f0, f1, rest, lon, lat.
  - intros (f0 & f1 & rest & lon & lat & -> & -> & -> & ->). reflexivity.
Qed.

(** Every pair has its two numbers. *)
Lemma contribution_pairs (tok : string) (pr : Position) :
  In pr (contribution tok) -> exists lon lat, pr = [lon; lat].
Proof.
  unfold contribution.
  destruct (token_pair tok) as [q|] eqn:H; simpl; [|tauto].
  intros [<-|[]]. apply token_pair_spec in H
    as (_ & _ & _ & lon & lat & _ & _ & _ & ->).
  now exists lon, lat.
Qed.

Lemma parse_coordinates_pairs (text : option string) (pr : Position) :
  In pr (parse_coordinates text) -> exists lon lat, pr = [lon; lat].
Proof.
  destruct text as [t|]; [|intros []].
  rewrite parse_coordinates_split. intros H.
  apply in_flat_map in H as (tok & _ & H).
  now apply contribution_pairs in H.
Qed.

Lemma parse_coordinates_empty : parse_coordinates (Some EmptyString) = [].
Proof. reflexivity. Qed.

End ParserFacts.

Import PyStrFacts PyFloatFacts ParserFacts.

(** C3 (as amended).  The result of the coordinate parser is made of the
    tokens of the text one by one, in input order: a token contributes the
    pair [[lon, lat]] if and only if it has at least two non-empty
    comma-separated sub-fields and [float] accepts the first two (finite
    or not); a token that fails this adds nothing, and what stands before
    and after it yields what it yields without it. *)
Theorem parse_coordinates_by_token :
  (forall text : string,
      parse_coordinates (Some text) = omap token_pair (split text))
  /\ (forall (tok : string) (pr : Position),
         token_pair tok = Some pr <->
         exists f0 f1 rest lon lat,
           fields tok = f0 :: f1 :: rest /\
           float f0 = Some lon /\ float f1 = Some lat /\
           pr = [lon; lat])
  /\ (forall a tok b : string,
         no_space tok = true ->
         parse_coordinates (Some (a ++ " " ++ tok ++ " " ++ b)%string)
         = parse_coordinates (Some a) ++ contribution tok
             ++ parse_coordinates (Some b)).
Proof.
  split; [|split].
  - intros text.
    now rewrite parse_coordinates_split, flat_map_contribution.
  - apply token_pair_spec.
  - intros a tok b Htok.
    change (a ++ " " ++ tok ++ " " ++ b)%string
      with (a ++ String " " (tok ++ String " " b))%string.
    rewrite !parse_coordinates_space by reflexivity.
    now rewrite (parse_coordinates_token _ Htok).
Qed.

(** The text ["0,0 x,1 2,2"]: the middle token is skipped. *)
Lemma parse_coordinates_by_token_witness :
  parse_coordinates (Some ("0,0" ++ " " ++ "x,1" ++ " " ++ "2,2")%string)
  = parse_coordinates (Some "0,0") ++ contribution "x,1"
      ++ parse_coordinates (Some "2,2")
  /\ contribution "x,1" = [].
Proof.
  split.
  - apply (proj2 (proj2 parse_coordinates_by_token) "0,0" "x,1" "2,2").
    reflexivity.
  - vm_compute. reflexivity.
Defined.

(** C3 (as stated) fails on the token ["inf,1"]: it yields the pair
    [[inf, 1.0]] although its first sub-field is not a finite number. *)
Lemma finite_pair_rule_fails : ~ finite_pair_rule "inf,1".
Proof.
  unfold finite_pair_rule. intros [H _].
  destruct H as (f0 & f1 & rest & lon & lat & Hf & H0 & H1 & Hfin & _).
  - vm_compute. discriminate.
  - vm_compute in Hf. injection Hf as <- <- <-.
    vm_compute in H0. injection H0 as <-. discriminate.
Qed.

(** C5.  A token ["lon,lat,alt"] whose first two sub-fields are numeric
    yields the pair that ["lon,lat"] yields, which is [[lon, lat]]:
    whatever follows the second comma has no effect. *)
Theorem altitude_ignored (lon lat alt : string) (x y : spec_float) :
  float lon = Some x ->
  float lat = Some y ->
  no_space (lon ++ "," ++ lat ++ "," ++ alt)%string = true ->
  parse_coordinates (Some (lon ++ "," ++ lat ++ "," ++ alt)%string) = [[x; y]]
  /\ parse_coordinates (Some (lon ++ "," ++ lat)%string) = [[x; y]].
Proof.
  intros Hx Hy Hns.
  pose proof (float_no_comma _ _ Hx) as Cx.
  pose proof (float_no_comma _ _ Hy) as Cy.
  pose proof (float_truthy _ _ Hx) as Tx.
  pose proof (float_truthy _ _ Hy) as Ty.
  assert (Hns2 : no_space (lon ++ "," ++ lat) = true).
  { rewrite !no_space_append in Hns. rewrite !no_space_append.
    apply andb_true_iff in Hns as [-> Hns].
    apply andb_true_iff in Hns as [_ Hns].
    apply andb_true_iff in Hns as [-> _]. reflexivity. }
  rewrite (parse_coordinates_token _ Hns), (parse_coordinates_token _ Hns2).
  unfold contribution, token_pair, fields.
  change (lon ++ "," ++ lat ++ "," ++ alt)%string
    with (lon ++ String "," (lat ++ String "," alt))%string.
  change (lon ++ "," ++ lat)%string with (lon ++ String "," lat)%string.
  rewrite !(split_sep_first _ lon) by exact Cx.
  rewrite (split_sep_first _ lat) by exact Cy.
  rewrite (split_sep_no_sep _ lat) by exact Cy.
  simpl. rewrite Tx, Ty, Hx, Hy. split; reflexivity.
Qed.

(** The token ["35.5,33.9,12"] against ["35.5,33.9"]. *)
Lemma altitude_ignored_witness :
  parse_coordinates (Some ("35.5" ++ "," ++ "33.9" ++ "," ++ "12")%string)
  = [[S754_finite false 4996180836614144 (-47);
      S754_finite false 4771000855245619 (-47)]]
  /\ parse_coordinates (Some ("35.5" ++ "," ++ "33.9")%string)
     = [[S754_finite false 4996180836614144 (-47);
         S754_finite false 4771000855245619 (-47)]].
Proof.
  apply (altitude_ignored "35.5" "33.9" "12"); vm_compute; reflexivity.
Defined.

(* ===================================================================== *)
(** * Dictionaries                                                        *)
(* ===================================================================== *)

Module PyDictFacts.
Import PyDict.

Lemma get_set_eq {V} (d : dict V) (k : string) (v : V) :
  get (set d k v) k = Some v.
Proof.
  induction d as [|[k' v'] d IH]; simpl.
  - now rewrite String.eqb_refl.
  - destruct (String.eqb k' k) eqn:E; simpl.
    + now rewrite String.eqb_refl.
    + now rewrite E.
Qed.

Lemma get_set_neq {V} (d : dict V) (k k' : string) (v : V) :
  k <> k' -> get (set d k v) k' = get d k'.
Proof.
  intros Hk. induction d as [|[k0 v0] d IH]; simpl.
  - destruct (String.eqb k k') eqn:E; [|reflexivity].
    now apply String.eqb_eq in E.
  - destruct (String.eqb k0 k) eqn:E; simpl.
    + apply String.eqb_eq in E. subst k0.
      destruct (String.eqb k k') eqn:E'; [|reflexivity].
      now apply String.eqb_eq in E'.
    + now rewrite IH.
Qed.

Lemma keys_set {V} (d : dict V) (k k' : string) (v : V) :
  In k' (keys (set d k v)) -> k' = k \/ In k' (keys d).
Proof.
  unfold keys. induction d as [|[k0 v0] d IH]; simpl.
  - intros [<-|[]]. now left.
  - destruct (String.eqb k0 k); simpl.
    + intros [<-|H]; [now left | now right; right].
    + intros [<-|H]; [now right; left|].
      destruct (IH H) as [->|H']; [now left | now right; right].
Qed.

Lemma get_keys {V} (d : dict V) (k : string) :
  ~ In k (keys d) -> get d k = None.
Proof.
  unfold keys. induction d as [|[k0 v0] d IH]; simpl; [reflexivity|].
  intros H. destruct (String.eqb k0 k) eqn:E.
  - apply String.eqb_eq in E. tauto.
  - apply IH. tauto.
Qed.

End PyDictFacts.

(* ===================================================================== *)
(** * The properties of a Placemark                                       *)
(* ===================================================================== *)

Module PropertiesFacts.
Import PyDictFacts.

Lemma placemark_properties_unfold (pm : Element) :
  placemark_properties pm
  = List.fold_left set_from_data (extended_data pm)
      (set_from_child
         (set_from_child
            (set_from_child [] "name" (find pm (KML_NS ++ "name")))
            "description" (find pm (KML_NS ++ "description")))
         "styleUrl" (find pm (KML_NS ++ "styleUrl"))).
Proof.
  unfold placemark_properties, extended_data.
  destruct (find pm (KML_NS ++ "ExtendedData")); reflexivity.
Qed.

(** What [set_from_child] leaves under a key. *)
Lemma get_set_from_child_eq (props : PyDict.dict string) (pm : Element)
    (k : string) :
  PyDict.get (set_from_child props k (find pm (KML_NS ++ k))) k
  = match child_text pm k with
    | Some v => Some v
    | None => PyDict.get props k
    end.
Proof.
  unfold set_from_child, child_text.
  destruct (find pm (KML_NS ++ k)) as [el|]; [|reflexivity].
  destruct (text el) as [t|]; [|reflexivity].
  destruct (truthy t); [|reflexivity].
  apply get_set_eq.
Qed.

Lemma get_set_from_child_neq (props : PyDict.dict string)
    (el : option Element) (k k' : string) :
  k <> k' ->
  PyDict.get (set_from_child props k el) k' = PyDict.get props k'.
Proof.
  intros Hk. unfold set_from_child.
  destruct el as [e|]; [|reflexivity].
  destruct (text e) as [t|]; [|reflexivity].
  destruct (truthy t); [|reflexivity].
  now apply get_set_neq.
Qed.

(** A [Data] element with another name leaves the key alone. *)
Lemma get_set_from_data (props : PyDict.dict string) (data : Element)
    (k : string) :
  get data "name" <> Some k ->
  PyDict.get (set_from_data props data) k = PyDict.get props k.
Proof.
  intros Hk. unfold set_from_data.
  destruct (get data "name") as [k0|]; [|reflexivity].
  destruct (truthy k0); [|reflexivity].
  apply get_set_neq. congruence.
Qed.

Lemma get_fold_set_from_data (datas : list Element) (k : string) :
  (forall data, In data datas -> get data "name" <> Some k) ->
  forall props,
    PyDict.get (List.fold_left set_from_data datas props) k
    = PyDict.get props k.
Proof.
  induction datas as [|data datas IH]; intros H props; simpl;
    [reflexivity|].
  rewrite IH by (intros d Hd; apply H; now right).
  apply get_set_from_data, H. now left.
Qed.

(** No step of the construction introduces an empty key. *)
Lemma keys_truthy_set (props : PyDict.dict string) (k v : string) :
  truthy k = true -> keys_truthy props ->
  keys_truthy (PyDict.set props k v).
Proof.
  intros Hk Hp k' H. apply keys_set in H as [->|H]; [exact Hk|].
  now apply Hp.
Qed.

Lemma keys_truthy_set_from_child (props : PyDict.dict string)
    (k : string) (el : option Element) :
  truthy k = true -> keys_truthy props ->
  keys_truthy (set_from_child props k el).
Proof.
  intros Hk Hp. unfold set_from_child.
  destruct el as [e|]; [|exact Hp].
  destruct (text e) as [t|]; [|exact Hp].
  destruct (truthy t); [|exact Hp].
  now apply keys_truthy_set.
Qed.

Lemma keys_truthy_set_from_data (props : PyDict.dict string)
    (data : Element) :
  keys_truthy props -> keys_truthy (set_from_data props data).
Proof.
  intros Hp. unfold set_from_data.
  destruct (get data "name") as [k|]; [|exact Hp].
  destruct (truthy k) eqn:Hk; [|exact Hp].
  now apply keys_truthy_set.
Qed.

Lemma keys_truthy_fold (datas : list Element) :
  forall props, keys_truthy props ->
    keys_truthy (List.fold_left set_from_data datas props).
Proof.
  induction datas as [|data datas IH]; intros props Hp; simpl;
    [exact Hp|].
  now apply IH, keys_truthy_set_from_data.
Qed.

Lemma placemark_properties_keys (pm : Element) :
  keys_truthy (placemark_properties pm).
Proof.
  rewrite placemark_properties_unfold.
  apply keys_truthy_fold.
  repeat (apply keys_truthy_set_from_child; [reflexivity|]).
  intros k [].
Qed.

End PropertiesFacts.

(* ===================================================================== *)
(** * The geometry of a Placemark                                         *)
(* ===================================================================== *)

Module GeometryFacts.

Lemma nonempty_spec {A} (l : list A) : nonempty l = true <-> l <> [].
Proof. destruct l; simpl; split; congruence. Qed.

(** The cascade of [placemark_to_feature] in terms of the three
    probes. *)
Lemma placemark_to_feature_probes (pm : Element) :
  placemark_to_feature pm
  = let props := placemark_properties pm in
    match point_coords pm with
    | c0 :: _ => Some (mkFeature props (Point c0))
    | [] =>
        match linestring_coords pm with
        | (_ :: _) as coords => Some (mkFeature props (LineString coords))
        | [] =>
            match polygon_coords pm with
            | (_ :: _) as coords => Some (mkFeature props (Polygon [coords]))
            | [] => None
            end
        end
    end.
Proof.
  unfold placemark_to_feature, point_coords, linestring_coords,
    polygon_coords.
  cbv zeta.
  assert (Hpoly : forall (props : PyDict.dict string),
    match find_desc pm (KML_NS ++ "Polygon") with
    | Some polygon =>
        match find_desc polygon (KML_NS ++ "outerBoundaryIs") with
        | Some outer =>
            if nonempty
                 (parse_coordinates
                    match find_desc outer (KML_NS ++ "coordinates") with
                    | Some c => text c
                    | None => Some EmptyString
                    end)
            then Some (mkFeature props
                   (Polygon [parse_coordinates
                      match find_desc outer (KML_NS ++ "coordinates") with
                      | Some c => text c
                      | None => Some EmptyString
                      end]))
            else None
        | None => None
        end
    | None => None
    end
    = match
        match find_desc pm (KML_NS ++ "Polygon") with
        | Some polygon =>
            match find_desc polygon (KML_NS ++ "outerBoundaryIs") with
            | Some outer =>
                match find_desc outer (KML_NS ++ "coordinates") with
                | Some c => parse_coordinates (text c)
                | None => []
                end
            | None => []
            end
        | None => []
        end
      with
      | (_ :: _) as coords => Some (mkFeature props (Polygon [coords]))
      | [] => None
      end).
  { intros props.
    destruct (find_desc pm (KML_NS ++ "Polygon")) as [polygon|];
      [|reflexivity].
    destruct (find_desc polygon (KML_NS ++ "outerBoundaryIs"))
      as [outer|]; [|reflexivity].
    destruct (find_desc outer (KML_NS ++ "coordinates")) as [c|];
      [|reflexivity].
    destruct (parse_coordinates (text c)); reflexivity. }
  rewrite Hpoly. clear Hpoly.
  destruct (find_desc pm (KML_NS ++ "Point")) as [point|].
  - destruct (parse_coordinates (coords_text point)); [|reflexivity].
    destruct (find_desc pm (KML_NS ++ "LineString")) as [ls|];
      [|reflexivity].
    destruct (parse_coordinates (coords_text ls)); reflexivity.
  - destruct (find_desc pm (KML_NS ++ "LineString")) as [ls|];
      [|reflexivity].
    destruct (parse_coordinates (coords_text ls)); reflexivity.
Qed.

Lemma placemark_to_feature_properties (pm : Element) (feat : Feature) :
  placemark_to_feature pm = Some feat ->
  properties feat = placemark_properties pm.
Proof.
  rewrite placemark_to_feature_probes. simpl.
  destruct (point_coords pm); [|now intros [= <-]].
  destruct (linestring_coords pm); [|now intros [= <-]].
  destruct (polygon_coords pm); [discriminate | now intros [= <-]].
Qed.

Lemma placemark_to_feature_usable (pm : Element) :
  placemark_to_feature pm <> None <-> usable pm.
Proof.
  rewrite placemark_to_feature_probes. unfold usable. simpl.
  destruct (point_coords pm), (linestring_coords pm),
    (polygon_coords pm); split; intros H; try congruence;
    try (now left); try (now right; left); try (now right; right).
  destruct H as [H|[H|H]]; congruence.
Qed.

Lemma point_coords_pairs (pm : Element) (c : Position) :
  In c (point_coords pm) -> exists lon lat, c = [lon; lat].
Proof.
  unfold point_coords. destruct (find_desc pm _); [|intros []].
  apply ParserFacts.parse_coordinates_pairs.
Qed.

Lemma placemark_to_feature_nonempty (pm : Element) (feat : Feature) :
  placemark_to_feature pm = Some feat ->
  coordinates_nonempty (geometry feat) = true.
Proof.
  rewrite placemark_to_feature_probes. simpl.
  destruct (point_coords pm) as [|c cs] eqn:Hp.
  - destruct (linestring_coords pm); [|now intros [= <-]].
    destruct (polygon_coords pm); [discriminate | now intros [= <-]].
  - intros [= <-]. simpl.
    destruct (point_coords_pairs pm c) as (lon & lat & ->);
      [rewrite Hp; now left | reflexivity].
Qed.

End GeometryFacts.

(* ===================================================================== *)
(** * The loop of [convert]                                               *)
(* ===================================================================== *)

Module ConvertFacts.

Lemma fold_collect (pms : list Element) :
  forall feats,
    List.fold_left collect pms feats
    = feats ++ omap placemark_to_feature pms.
Proof.
  induction pms as [|pm pms IH]; intros feats; simpl.
  - now rewrite app_nil_r.
  - rewrite IH. unfold collect.
    destruct (placemark_to_feature pm); [|reflexivity].
    now rewrite <- app_assoc.
Qed.

(** The features are the results of the mapper that are not [None], in
    the order of the Placemark elements. *)
Lemma convert_features_omap (root : Element) :
  convert_features root
  = omap placemark_to_feature
      (findall_desc root (KML_NS ++ "Placemark")).
Proof. unfold convert_features. now rewrite fold_collect. Qed.

Lemma omap_In {A B} (f : A -> option B) (l : list A) (y : B) :
  In y (omap f l) <-> exists x, In x l /\ f x = Some y.
Proof.
  induction l as [|a l IH]; simpl.
  - split; [intros [] | intros (x & [] & _)].
  - destruct (f a) as [b|] eqn:E; simpl; rewrite ?IH; split.
    + intros [<-|(x & Hx & Hf)]; [now exists a; auto | exists x; auto].
    + intros (x & [<-|Hx] & Hf); [left; congruence | right; now exists x].
    + intros (x & Hx & Hf). exists x; auto.
    + intros (x & [<-|Hx] & Hf); [congruence | now exists x].
Qed.

Lemma convert_features_In (root : Element) (feat : Feature) :
  In feat (convert_features root) <->
  exists pm, In pm (findall_desc root (KML_NS ++ "Placemark"))
             /\ placemark_to_feature pm = Some feat.
Proof. rewrite convert_features_omap. apply omap_In. Qed.

End ConvertFacts.

Import PyDictFacts PropertiesFacts GeometryFacts ConvertFacts.

(* ===================================================================== *)
(** * The element tree                                                    *)
(* ===================================================================== *)

Module ETFacts.

(** Induction on an element with the children as hypotheses. *)
Lemma Element_induction (P : Element -> Prop) :
  (forall t a x cs, Forall P cs -> P (mkElement t a x cs)) ->
  forall e, P e.
Proof.
  intros H. fix IH 1. intros [t a x cs]. apply H.
  induction cs as [|c cs IHcs]; constructor; [apply IH | exact IHcs].
Qed.

Lemma has_tag_spec (t : string) (e : Element) :
  has_tag t e = true <-> tag e = t.
Proof. apply String.eqb_eq. Qed.

Lemma iter_unfold (t : string) (e : Element) :
  iter t e
  = (if has_tag t e then [e] else []) ++ List.flat_map (iter t) (children e).
Proof. destruct e; reflexivity. Qed.

Lemma iter_paths_unfold (t : string) (e : Element) :
  iter_paths t e
  = (if has_tag t e then [[]] else []) ++ below_paths t 0 (children e).
Proof.
  destruct e as [t' a x cs]. simpl. f_equal.
  generalize 0%nat. induction cs as [|c cs IH]; intros i; simpl;
    [reflexivity | now rewrite IH].
Qed.

(** ** The positions are those of the elements yielded *)

Lemma below_paths_subtrees (t : string) (e : Element) (l : list Element) :
  Forall (fun c => List.map (subtree_at c) (iter_paths t c)
                   = List.map Some (iter t c)) l ->
  forall i,
    (forall j, nth_error (children e) (i + j) = nth_error l j) ->
    List.map (subtree_at e) (below_paths t i l)
    = List.map Some (List.flat_map (iter t) l).
Proof.
  induction 1 as [|c l Hc _ IH]; intros i Hi; simpl; [reflexivity|].
  rewrite !List.map_app, List.map_map. f_equal.
  - rewrite <- Hc. apply List.map_ext. intros q. simpl.
    specialize (Hi 0%nat). rewrite Nat.add_0_r in Hi. now rewrite Hi.
  - apply IH. intros j. specialize (Hi (S j)).
    now rewrite Nat.add_succ_r in Hi.
Qed.

Lemma iter_paths_subtrees (t : string) (e : Element) :
  List.map (subtree_at e) (iter_paths t e) = List.map Some (iter t e).
Proof.
  induction e as [t' a x cs IH] using Element_induction.
  rewrite iter_paths_unfold, iter_unfold, !List.map_app. f_equal.
  - destruct (has_tag t _); reflexivity.
  - apply below_paths_subtrees; [exact IH | reflexivity].
Qed.

(** ** Every position of a matching element is among them *)

Lemma below_paths_In (t : string) (l : list Element) :
  forall i p,
    In p (below_paths t i l) <->
    exists j c q,
      p = (i + j)%nat :: q /\ nth_error l j = Some c
      /\ In q (iter_paths t c).
Proof.
  induction l as [|c l IH]; intros i p; simpl.
  - split; [intros [] | intros (j & c & q & _ & H & _)].
    now destruct j.
  - rewrite List.in_app_iff, List.in_map_iff, IH. split.
    + intros [(q & <- & Hq) | (j & c' & q & -> & Hj & Hq)].
      * exists 0%nat, c, q. now rewrite Nat.add_0_r.
      * exists (S j), c', q. now rewrite Nat.add_succ_r.
    + intros ([|j] & c' & q & -> & Hj & Hq); simpl in Hj.
      * injection Hj as <-. left. exists q.
        now rewrite Nat.add_0_r.
      * right. exists j, c', q. now rewrite Nat.add_succ_r.
Qed.

Lemma iter_paths_In (t : string) (p : list nat) :
  forall e,
    In p (iter_paths t e) <->
    exists d, subtree_at e p = Some d /\ has_tag t d = true.
Proof.
  induction p as [|i p IH]; intros e;
    rewrite iter_paths_unfold, List.in_app_iff, below_paths_In; simpl.
  - split.
    + intros [H | (j & c & q & [=] & _)].
      destruct (has_tag t e) eqn:Ht; [now exists e | destruct H].
    + intros (d & [= <-] & ->). left. now left.
  - split.
    + intros [H | (j & c & q & [= -> ->] & Hj & Hq)].
      * destruct (has_tag t e); [destruct H as [[=]|[]] | destruct H].
      * rewrite Hj. now apply IH.
    + intros (d & H & Hd). right.
      destruct (nth_error (children e) i) as [c|] eqn:Hc; [|discriminate].
      exists i, c, p. split; [reflexivity|]. split; [exact Hc|].
      apply IH. now exists d.
Qed.

(** ** They come in document order *)

Lemma path_lt_nil (i : nat) (q : list nat) : path_lt [] (i :: q).
Proof. reflexivity. Qed.

Lemma path_lt_cons (i : nat) (p q : list nat) :
  path_lt p q -> path_lt (i :: p) (i :: q).
Proof.
  unfold path_lt. simpl. intros ->.
  now rewrite Nat.eqb_refl, orb_true_r.
Qed.

Lemma path_lt_head (i j : nat) (p q : list nat) :
  (i < j)%nat -> path_lt (i :: p) (j :: q).
Proof.
  unfold path_lt. simpl. intros H.
  apply Nat.ltb_lt in H. now rewrite H.
Qed.

Lemma StronglySorted_app {A} (R : A -> A -> Prop) (l1 l2 : list A) :
  StronglySorted R l1 -> StronglySorted R l2 ->
  (forall x y, In x l1 -> In y l2 -> R x y) ->
  StronglySorted R (l1 ++ l2).
Proof.
  induction 1 as [|a l1 Hs IH Ha]; intros H2 H12; simpl; [exact H2|].
  constructor.
  - apply IH; [exact H2|]. intros x y Hx. apply H12. now right.
  - apply Forall_app. split; [exact Ha|].
    apply List.Forall_forall. intros y Hy. apply H12; [now left | exact Hy].
Qed.

Lemma StronglySorted_map_cons (i : nat) (l : list (list nat)) :
  StronglySorted path_lt l ->
  StronglySorted path_lt (List.map (cons i) l).
Proof.
  induction 1 as [|p l Hs IH Hp]; simpl; constructor; [exact IH|].
  apply List.Forall_map. revert Hp. apply List.Forall_impl.
  intros q. apply path_lt_cons.
Qed.

Lemma below_paths_sorted (t : string) (l : list Element) :
  Forall (fun c => StronglySorted path_lt (iter_paths t c)) l ->
  forall i, StronglySorted path_lt (below_paths t i l).
Proof.
  induction 1 as [|c l Hc _ IH]; intros i; simpl; [constructor|].
  apply StronglySorted_app.
  - now apply StronglySorted_map_cons.
  - apply IH.
  - intros x y Hx Hy.
    apply List.in_map_iff in Hx as (q & <- & _).
    apply below_paths_In in Hy as (j & c' & q' & -> & _).
    apply path_lt_head. lia.
Qed.

Lemma iter_paths_sorted (t : string) (e : Element) :
  StronglySorted path_lt (iter_paths t e).
Proof.
  induction e as [t' a x cs IH] using Element_induction.
  rewrite iter_paths_unfold. apply StronglySorted_app.
  - destruct (has_tag t _); repeat constructor.
  - now apply below_paths_sorted.
  - intros p q Hp Hq.
    apply below_paths_In in Hq as (j & c & q' & -> & _).
    destruct (has_tag t _); [destruct Hp as [<-|[]] | destruct Hp].
    apply path_lt_nil.
Qed.

(** ** The search below an element *)

(** [findall_desc] yields the matching elements at the positions other
    than the root, each position once and in document order. *)
Lemma findall_desc_positions (t : string) (root : Element) :
  exists positions : list (list nat),
    StronglySorted path_lt positions
    /\ (forall p,
           In p positions <->
           p <> [] /\ exists d, subtree_at root p = Some d /\ tag d = t)
    /\ List.map (subtree_at root) positions
       = List.map Some (findall_desc root t).
Proof.
  exists (below_paths t 0 (children root)). repeat split.
  - apply below_paths_sorted, List.Forall_forall.
    intros c _. apply iter_paths_sorted.
  - apply below_paths_In in H as (j & c & q & -> & _). discriminate.
  - apply below_paths_In in H as (j & c & q & -> & Hj & Hq).
    apply iter_paths_In in Hq as (d & Hd & Ht).
    exists d. simpl. rewrite Hj. split; [exact Hd|].
    now apply has_tag_spec.
  - intros (Hp & d & Hd & Ht). apply below_paths_In.
    destruct p as [|i q]; [congruence|]. simpl in Hd.
    destruct (nth_error (children root) i) as [c|] eqn:Hc;
      [|discriminate].
    exists i, c, q. split; [reflexivity|]. split; [exact Hc|].
    apply iter_paths_In. exists d. split; [exact Hd|].
    now apply has_tag_spec.
  - apply below_paths_subtrees; [|reflexivity].
    apply List.Forall_forall. intros c _. apply iter_paths_subtrees.
Qed.

End ETFacts.

Import ETFacts.

(* ===================================================================== *)
(** * The model on concrete inputs                                        *)
(* ===================================================================== *)

(** [float] on decimal texts, rounded as binary64. *)
Example float_tenth :
  float "0.1" = Some (S754_finite false 7205759403792794 (-56)).
Proof. vm_compute. reflexivity. Qed.

Example float_1e23 :
  float "1e23" = Some (S754_finite false 5960464477539062 24).
Proof. vm_compute. reflexivity. Qed.

Example float_subnormal :
  float "5e-324" = Some (S754_finite false 1 (-1074)).
Proof. vm_compute. reflexivity. Qed.

Example float_negative_zero : float "-0.0" = Some (S754_zero true).
Proof. vm_compute. reflexivity. Qed.

Example float_underscore :
  float "1_000.5" = Some (S754_finite false 8800491068719104 (-43)).
Proof. vm_compute. reflexivity. Qed.

(** Texts that are not finite numbers and are accepted. *)
Example float_inf : float "inf" = Some (S754_infinity false).
Proof. vm_compute. reflexivity. Qed.

Example float_minus_infinity : float "-Infinity" = Some (S754_infinity true).
Proof. vm_compute. reflexivity. Qed.

Example float_nan : float "NaN" = Some S754_nan.
Proof. vm_compute. reflexivity. Qed.

Example float_overflow : float "1e999" = Some (S754_infinity false).
Proof. vm_compute. reflexivity. Qed.

(** Texts that raise [ValueError]. *)
Example float_rejects :
  List.map float
    [EmptyString; "."; "1e"; "1,2"; "0x10"; "infinit"; "_1"; "1__0"; "abc"]
  = [None; None; None; None; None; None; None; None; None].
Proof. vm_compute. reflexivity. Qed.

(** [split] and [strip] use the whitespace of [str], which is wider than
    that of C. *)
Example split_whitespace :
  split (String (ascii_of_nat 9) "1,2"
         ++ String (ascii_of_nat 10) EmptyString
         ++ String (ascii_of_nat 160) "3,4  ")
  = ["1,2"; "3,4"].
Proof. vm_compute. reflexivity. Qed.

Example split_sep_fields :
  split_sep "," "1,,2," = ["1"; EmptyString; "2"; EmptyString]
  /\ fields "1,,2," = ["1"; "2"].
Proof. vm_compute. split; reflexivity. Qed.

(** A line of three pairs. *)
Example scenario_linestring :
  placemark_to_feature
    (kml "Placemark" None
       [kml "LineString" None [kml "coordinates" (Some "0,0 1,1 2,2") []]])
  = Some (mkFeature [] (LineString [[f0; f0]; [f1; f1]; [f2; f2]])).
Proof. vm_compute. reflexivity. Qed.

(** Properties without geometry make no feature. *)
Example scenario_no_geometry :
  placemark_to_feature
    (kml "Placemark" None [kml "ExtendedData" None [data_pop]])
  = None
  /\ placemark_properties
       (kml "Placemark" None [kml "ExtendedData" None [data_pop]])
     = [("pop", "42")].
Proof. vm_compute. split; reflexivity. Qed.

(** A document without Placemarks. *)
Example scenario_empty :
  convert_features (kml "kml" None [kml "Document" None []]) = [].
Proof. vm_compute. reflexivity. Qed.

(** A [coordinates] element directly below [outerBoundaryIs] serves as
    well as one below a [LinearRing]. *)
Example polygon_without_ring_element :
  placemark_to_feature
    (kml "Placemark" None
       [kml "Polygon" None
          [kml "outerBoundaryIs" None
             [kml "coordinates" (Some "0,0 1,0 1,1 0,0") []]]])
  = placemark_to_feature placemark_polygon.
Proof. vm_compute. reflexivity. Qed.

(** A later [Data] element with the same name overwrites the value and
    keeps the place of the key. *)
Example data_overwrites :
  List.fold_left set_from_data
    [data_pop;
     mkElement (KML_NS ++ "Data") [("name", "area")] None [];
     mkElement (KML_NS ++ "Data") [("name", "pop")] None
       [kml "value" (Some " 43 ") []]]
    []
  = [("pop", "43"); ("area", EmptyString)].
Proof. vm_compute. reflexivity. Qed.

(* ===================================================================== *)
(** * The properties of the converter                                     *)
(* ===================================================================== *)

(** C1.  The mapper returns a Feature exactly when one of its three
    probes comes to a non-empty coordinate sequence; the features of the
    collection are the results of the mapper on the Placemark elements,
    those without a result left out, so that each feature comes from a
    Placemark with such a probe and has non-empty coordinates. *)
Theorem features_have_geometry :
  (forall pm : Element, placemark_to_feature pm <> None <-> usable pm)
  /\ (forall root : Element,
         convert_features root
         = omap placemark_to_feature
             (findall_desc root (KML_NS ++ "Placemark")))
  /\ (forall (root : Element) (feat : Feature),
         In feat (convert_features root) ->
         coordinates_nonempty (geometry feat) = true
         /\ exists pm,
             In pm (findall_desc root (KML_NS ++ "Placemark"))
             /\ placemark_to_feature pm = Some feat
             /\ usable pm).
Proof.
  split; [|split].
  - apply placemark_to_feature_usable.
  - apply convert_features_omap.
  - intros root feat H.
    apply convert_features_In in H as (pm & Hpm & Hf). split.
    + now apply (placemark_to_feature_nonempty pm).
    + exists pm. repeat split; try assumption.
      apply placemark_to_feature_usable. congruence.
Qed.

(** The first feature of [document_two]. *)
Lemma features_have_geometry_witness :
  coordinates_nonempty
    (geometry (mkFeature [("name", "A")] (Point [f1; f2]))) = true
  /\ exists pm,
      In pm (findall_desc document_two (KML_NS ++ "Placemark"))
      /\ placemark_to_feature pm
         = Some (mkFeature [("name", "A")] (Point [f1; f2]))
      /\ usable pm.
Proof.
  apply (proj2 (proj2 features_have_geometry) document_two).
  vm_compute. left. reflexivity.
Defined.

(** C2 (as amended).  For each of the keys 'name', 'description' and
    'styleUrl' that no [Data] element of the ExtendedData block assigns,
    the properties hold the key exactly when the first child of that name
    is present and its text is non-empty before trimming; the value is
    the trimmed text, which is the empty string when the text is all
    whitespace. *)
Theorem text_properties (pm : Element) (k : string) :
  In k ["name"; "description"; "styleUrl"] ->
  (forall data, In data (extended_data pm) -> get data "name" <> Some k) ->
  PyDict.get (placemark_properties pm) k = child_text pm k.
Proof.
  intros Hk Hdata.
  rewrite placemark_properties_unfold, get_fold_set_from_data by exact Hdata.
  destruct Hk as [<-|[<-|[<-|[]]]].
  - rewrite !get_set_from_child_neq by discriminate.
    rewrite get_set_from_child_eq. now destruct (child_text pm "name").
  - rewrite get_set_from_child_neq by discriminate.
    rewrite get_set_from_child_eq.
    destruct (child_text pm "description"); [reflexivity|].
    now rewrite get_set_from_child_neq by discriminate.
  - rewrite get_set_from_child_eq.
    destruct (child_text pm "styleUrl"); [reflexivity|].
    now rewrite !get_set_from_child_neq by discriminate.
Qed.

(** The name of [placemark_blank_name] is kept, as the empty string. *)
Lemma text_properties_witness :
  PyDict.get (placemark_properties placemark_blank_name) "name"
  = Some EmptyString.
Proof.
  apply (text_properties placemark_blank_name "name").
  - simpl. left. reflexivity.
  - intros data H. vm_compute in H. destruct H.
Defined.

(** C2 (as stated) fails on [placemark_blank_name]: the trimmed text is
    empty and yet the key 'name' is set, to the empty string. *)
Lemma trimmed_text_rule_fails :
  ~ trimmed_text_rule placemark_blank_name "name".
Proof. unfold trimmed_text_rule. vm_compute. discriminate. Qed.

(** A [Data] element named 'name' sets that key too, with or without a
    [name] child. *)
Lemma data_sets_name :
  PyDict.get
    (placemark_properties
       (kml "Placemark" None
          [kml "ExtendedData" None
             [mkElement (KML_NS ++ "Data") [("name", "name")] None
                [kml "value" (Some "x") []]]]))
    "name" = Some "x".
Proof. vm_compute. reflexivity. Qed.

(** C4 (as amended).  Each probe looks at one element only, the first
    below the Placemark with its tag, in document order.  The geometry is
    the one of the first probe, in the order Point, LineString, Polygon,
    whose element exists and has coordinates that parse to a non-empty
    sequence; in particular a Placemark whose first [Point] has
    coordinates that parse to a non-empty sequence becomes a Point
    feature whatever [LineString] it has. *)
Theorem probe_order (pm : Element) :
  (forall c cs,
      point_coords pm = c :: cs ->
      placemark_to_feature pm
      = Some (mkFeature (placemark_properties pm) (Point c)))
  /\ (forall l,
         point_coords pm = [] ->
         linestring_coords pm = l -> l <> [] ->
         placemark_to_feature pm
         = Some (mkFeature (placemark_properties pm) (LineString l)))
  /\ (forall r,
         point_coords pm = [] -> linestring_coords pm = [] ->
         polygon_coords pm = r -> r <> [] ->
         placemark_to_feature pm
         = Some (mkFeature (placemark_properties pm) (Polygon [r])))
  /\ (point_coords pm = [] -> linestring_coords pm = [] ->
      polygon_coords pm = [] -> placemark_to_feature pm = None)
  /\ (forall point linestring c cs,
         find_desc pm (KML_NS ++ "Point") = Some point ->
         find_desc pm (KML_NS ++ "LineString") = Some linestring ->
         parse_coordinates (coords_text point) = c :: cs ->
         placemark_to_feature pm
         = Some (mkFeature (placemark_properties pm) (Point c))).
Proof.
  rewrite placemark_to_feature_probes. cbv zeta. repeat split.
  - now intros c cs ->.
  - intros l -> -> Hl. destruct l; congruence.
  - intros r -> -> -> Hr. destruct r; congruence.
  - now intros -> -> ->.
  - intros point linestring c cs Hp _ Hc.
    unfold point_coords. now rewrite Hp, Hc.
Qed.

(** A Placemark with a point and a line below it. *)
Lemma probe_order_witness :
  placemark_to_feature
    (kml "Placemark" None
       [kml "LineString" None [kml "coordinates" (Some "0,0 1,1") []];
        kml "Point" None [kml "coordinates" (Some "1,2") []]])
  = Some (mkFeature [] (Point [f1; f2])).
Proof.
  refine (proj2 (proj2 (proj2 (proj2 (probe_order _))))
            (kml "Point" None [kml "coordinates" (Some "1,2") []])
            (kml "LineString" None [kml "coordinates" (Some "0,0 1,1") []])
            [f1; f2] [] _ _ _);
    vm_compute; reflexivity.
Defined.

(** C4 (as stated) fails on [placemark_empty_point]: it has a [Point] and
    a [LineString], and becomes a LineString feature. *)
Lemma point_wins_rule_fails : ~ point_wins_rule placemark_empty_point.
Proof.
  unfold point_wins_rule. intros H.
  destruct H as (props & c & H); [vm_compute; discriminate ..|].
  vm_compute in H. discriminate.
Qed.

(** Only the first [Point] is probed: with an empty [Point] before it, a
    [Point] with coordinates is passed over for the [LineString]. *)
Example later_point_not_probed :
  placemark_to_feature
    (kml "Placemark" None
       [kml "Point" None [];
        kml "Point" None [kml "coordinates" (Some "1,2") []];
        kml "LineString" None [kml "coordinates" (Some "0,0 1,1") []]])
  = Some (mkFeature [] (LineString [[f0; f0]; [f1; f1]])).
Proof. vm_compute. reflexivity. Qed.

(** C6.  When the first [Point] below a Placemark has coordinates that
    parse to a non-empty sequence, the geometry is the Point of the first
    pair of that sequence, and the further pairs are dropped; a [Point]
    without a [coordinates] child has the empty text for coordinates,
    which parses to nothing. *)
Theorem point_geometry :
  (forall (pm point : Element) (c : Position) (cs : list Position),
      find_desc pm (KML_NS ++ "Point") = Some point ->
      parse_coordinates (coords_text point) = c :: cs ->
      placemark_to_feature pm
      = Some (mkFeature (placemark_properties pm) (Point c)))
  /\ (forall point : Element,
         find point (KML_NS ++ "coordinates") = None ->
         coords_text point = Some EmptyString
         /\ parse_coordinates (coords_text point) = []).
Proof.
  split.
  - intros pm point c cs Hp Hc.
    rewrite placemark_to_feature_probes. cbv zeta.
    unfold point_coords. now rewrite Hp, Hc.
  - intros point H. unfold coords_text. rewrite H. now split.
Qed.

(** A point with two pairs: the second is dropped. *)
Lemma point_geometry_witness :
  placemark_to_feature
    (kml "Placemark" None
       [kml "Point" None [kml "coordinates" (Some "1,2 0,0") []]])
  = Some (mkFeature [] (Point [f1; f2])).
Proof.
  refine (proj1 point_geometry _
            (kml "Point" None [kml "coordinates" (Some "1,2 0,0") []])
            [f1; f2] [[f0; f0]] _ _);
    vm_compute; reflexivity.
Defined.

(** C7.  When a Placemark becomes a Polygon feature, its coordinates are
    one ring and no more; the ring is what the text of the first
    [coordinates] element anywhere below the first [outerBoundaryIs]
    below the first [Polygon] parses to, and it is not empty. *)
Theorem polygon_geometry (pm : Element) (feat : Feature)
    (rings : list (list Position)) :
  placemark_to_feature pm = Some feat ->
  geometry feat = Polygon rings ->
  exists polygon outer coords_el,
    find_desc pm (KML_NS ++ "Polygon") = Some polygon
    /\ find_desc polygon (KML_NS ++ "outerBoundaryIs") = Some outer
    /\ find_desc outer (KML_NS ++ "coordinates") = Some coords_el
    /\ rings = [parse_coordinates (text coords_el)]
    /\ parse_coordinates (text coords_el) <> [].
Proof.
  rewrite placemark_to_feature_probes. cbv zeta.
  destruct (point_coords pm); [|intros [= <-]; discriminate].
  destruct (linestring_coords pm); [|intros [= <-]; discriminate].
  unfold polygon_coords.
  destruct (find_desc pm (KML_NS ++ "Polygon")) as [polygon|] eqn:Hpoly;
    [|discriminate].
  destruct (find_desc polygon (KML_NS ++ "outerBoundaryIs")) as [outer|]
    eqn:Houter; [|discriminate].
  destruct (find_desc outer (KML_NS ++ "coordinates")) as [c|] eqn:Hcel;
    [|discriminate].
  destruct (parse_coordinates (text c)) as [|p ps] eqn:Hc; [discriminate|].
  intros [= <-]. cbn [geometry]. intros [= <-].
  exists polygon, outer, c. rewrite Hc.
  repeat split; try assumption. intros [=].
Qed.

(** The ring of [placemark_polygon], found under a [LinearRing]. *)
Lemma polygon_geometry_witness :
  exists polygon outer coords_el,
    find_desc placemark_polygon (KML_NS ++ "Polygon") = Some polygon
    /\ find_desc polygon (KML_NS ++ "outerBoundaryIs") = Some outer
    /\ find_desc outer (KML_NS ++ "coordinates") = Some coords_el
    /\ [[[f0; f0]; [f1; f0]; [f1; f1]; [f0; f0]]]
       = [parse_coordinates (text coords_el)]
    /\ parse_coordinates (text coords_el) <> [].
Proof.
  apply (polygon_geometry placemark_polygon
           (mkFeature [] (Polygon [[[f0; f0]; [f1; f0]; [f1; f1]; [f0; f0]]])));
    vm_compute; reflexivity.
Defined.

(** C10.  A [Data] element whose [name] attribute is the empty string
    changes the properties no more than one without the attribute, which
    is not at all; no feature of the collection has the empty string for
    a key. *)
Theorem empty_data_name_skipped :
  (forall (props : PyDict.dict string) (data data' : Element),
      get data "name" = Some EmptyString ->
      get data' "name" = None ->
      set_from_data props data = props
      /\ set_from_data props data' = props)
  /\ (forall (root : Element) (feat : Feature),
         In feat (convert_features root) ->
         ~ In EmptyString (PyDict.keys (properties feat))).
Proof.
  split.
  - intros props data data' H H'. unfold set_from_data.
    rewrite H, H'. now split.
  - intros root feat H.
    apply convert_features_In in H as (pm & _ & Hf).
    rewrite (placemark_to_feature_properties _ _ Hf). intros Hk.
    now apply placemark_properties_keys in Hk.
Qed.

(** The two [Data] elements without a usable name. *)
Lemma empty_data_name_skipped_witness :
  set_from_data [("name", "A")] data_empty_name = [("name", "A")]
  /\ set_from_data [("name", "A")] data_no_name = [("name", "A")].
Proof.
  apply (proj1 empty_data_name_skipped); vm_compute; reflexivity.
Defined.

(** C8 (as amended).  The loop of [convert] runs over the Placemark
    elements at every position of the tree other than the root itself,
    whatever their depth, each once and in document order; the features
    are the results of the mapper in that order; and whenever [convert]
    returns, which it does when the output is written in full, the number
    returned is the number of features written. *)
Theorem placemarks_in_document_order (root : Element) :
  (exists positions : list (list nat),
      StronglySorted path_lt positions
      /\ (forall p,
             In p positions <->
             p <> [] /\ exists pm,
               subtree_at root p = Some pm
               /\ tag pm = (KML_NS ++ "Placemark")%string)
      /\ List.map (subtree_at root) positions
         = List.map Some (findall_desc root (KML_NS ++ "Placemark")))
  /\ convert_features root
     = omap placemark_to_feature (findall_desc root (KML_NS ++ "Placemark"))
  /\ (forall (ET_parse : string -> option Element)
             (json_dump : FeatureCollection -> string)
             (write_outcome : string -> string -> WriteResult)
             (in_path out_path content : string)
             (fs : gmap string string),
         fs !! in_path = Some content ->
         ET_parse content = Some root ->
         (write_outcome out_path
            (json_dump (mkFeatureCollection (convert_features root)))
          = Written ->
          convert ET_parse json_dump write_outcome in_path out_path fs
          = (<[out_path :=
                 json_dump (mkFeatureCollection (convert_features root))]>
               fs,
             inr (List.length (convert_features root))))
         /\ (forall fs' n,
                convert ET_parse json_dump write_outcome in_path out_path fs
                = (fs', inr n) ->
                n = List.length (convert_features root)
                /\ fs'
                   = <[out_path :=
                         json_dump
                           (mkFeatureCollection (convert_features root))]>
                       fs)).
Proof.
  split; [|split].
  - apply findall_desc_positions.
  - apply convert_features_omap.
  - intros ET_parse json_dump write_outcome in_path out_path content fs
      Hin Hparse.
    unfold convert. rewrite Hin, Hparse. cbv zeta. split.
    + now intros ->.
    + intros fs' n.
      destruct (write_outcome out_path _); intros [= <- <-] || intros [=].
      now split.
Qed.

(** [document_two] has three Placemarks, at depths 2 and 3; the one in
    the middle has no geometry. *)
Lemma placemarks_in_document_order_witness :
  convert_features document_two
  = [mkFeature [("name", "A")] (Point [f1; f2]);
     mkFeature []
       (Polygon [[[f0; f0]; [f1; f0]; [f1; f1]; [f0; f0]]])]
  /\ convert (fun _ => Some document_two) (fun _ => "{}")
       (fun _ _ => Written)
       "in.kml" "out.geojson" {["in.kml" := "<kml/>"]}
     = (<["out.geojson" := "{}"]> {["in.kml" := "<kml/>"]}, inr 2%nat).
Proof.
  split.
  - rewrite (proj1 (proj2 (placemarks_in_document_order document_two))).
    vm_compute. reflexivity.
  - refine (proj1
              (proj2 (proj2 (placemarks_in_document_order document_two))
                 (fun _ => Some document_two) (fun _ => "{}")
                 (fun _ _ => Written)
                 "in.kml" "out.geojson" "<kml/>"
                 {["in.kml" := "<kml/>"]} _ _) _);
      reflexivity.
Defined.

(** C8 (as stated) fails on a document whose root is a Placemark: the
    root has a point and is not looked at. *)
Lemma visits_whole_tree_fails : ~ visits_whole_tree placemark_A.
Proof.
  intros H. specialize (H [] placemark_A eq_refl eq_refl).
  vm_compute in H. exact H.
Qed.

(* ===================================================================== *)
(** * Further properties of the coordinate parser                         *)
(* ===================================================================== *)

Module ParserMore.

Lemma split_from_blank (s : string) :
  blank s = true ->
  forall cur, split_from cur s = if truthy cur then [cur] else [].
Proof.
  induction s as [|c s IH]; intros H cur; simpl in *; [reflexivity|].
  apply andb_true_iff in H as [Hc Hs]. rewrite Hc, (IH Hs). simpl.
  reflexivity.
Qed.

(** The fields on both sides of a separator are those of the two parts. *)
Lemma split_sep_from_app (sep : ascii) (a b : string) :
  forall cur,
    split_sep_from sep cur (a ++ String sep b)
    = split_sep_from sep cur a ++ split_sep sep b.
Proof.
  induction a as [|c a IH]; intros cur; simpl.
  - now rewrite Ascii.eqb_refl.
  - destruct (Ascii.eqb c sep); simpl; now rewrite IH.
Qed.

Lemma fields_app (a b : string) :
  fields (a ++ String "," b) = fields a ++ fields b.
Proof.
  unfold fields, split_sep at 1. rewrite split_sep_from_app.
  apply List.filter_app.
Qed.

Lemma fields_leading_comma (b : string) : fields (String "," b) = fields b.
Proof. exact (fields_app EmptyString b). Qed.

Lemma contribution_fields (s t : string) :
  fields s = fields t -> contribution s = contribution t.
Proof. unfold contribution, token_pair. now intros ->. Qed.

Lemma no_space_comma (a b : string) :
  no_space a = true -> no_space b = true ->
  no_space (a ++ String "," b) = true.
Proof.
  intros Ha Hb. rewrite no_space_append, Ha. simpl. exact Hb.
Qed.

Lemma omap_cons {A B} (f : A -> option B) (a : A) (l : list A) :
  omap f (a :: l)
  = match f a with Some y => y :: omap f l | None => omap f l end.
Proof. reflexivity. Qed.

Lemma omap_length {A B} (f : A -> option B) (l : list A) :
  (List.length (omap f l) <= List.length l)%nat
  /\ (List.length (omap f l) = List.length l <->
      forall x, In x l -> f x <> None).
Proof.
  induction l as [|a l [IHle IHeq]].
  - split; [reflexivity|]. split; [intros _ x [] | reflexivity].
  - rewrite omap_cons. destruct (f a) as [b|] eqn:E; simpl.
    + split; [lia|]. split.
      * intros H x [<-|Hx]; [congruence|].
        apply IHeq; [lia | exact Hx].
      * intros H. f_equal. apply IHeq. intros x Hx. apply H. now right.
    + split; [lia|]. split.
      * intros H. lia.
      * intros H. exfalso. apply (H a); [now left | exact E].
Qed.

End ParserMore.

Import ParserMore.

(** X1.  A text of whitespace only has no coordinates. *)
Theorem parse_coordinates_blank (s : string) :
  blank s = true -> parse_coordinates (Some s) = [].
Proof.
  intros H. rewrite parse_coordinates_split. unfold split.
  now rewrite (split_from_blank s H).
Qed.

(** A space, a line feed and a tab. *)
Lemma parse_coordinates_blank_witness :
  parse_coordinates
    (Some (String " " (String (ascii_of_nat 10)
             (String (ascii_of_nat 9) EmptyString)))) = [].
Proof. apply parse_coordinates_blank. reflexivity. Defined.

(** X2.  Any whitespace character between two texts separates them: the
    pairs of the whole are those of the first text followed by those of
    the second. *)
Theorem whitespace_separates (a : string) (c : ascii) (b : string) :
  is_space c = true ->
  parse_coordinates (Some (a ++ String c b)%string)
  = parse_coordinates (Some a) ++ parse_coordinates (Some b).
Proof.
  intros Hc. rewrite !parse_coordinates_split, (split_space _ _ _ Hc).
  apply flat_map_app.
Qed.

(** Two lines joined by a line feed. *)
Lemma whitespace_separates_witness :
  parse_coordinates (Some ("0,0" ++ String (ascii_of_nat 10) "1,1")%string)
  = parse_coordinates (Some "0,0") ++ parse_coordinates (Some "1,1").
Proof. apply whitespace_separates. reflexivity. Defined.

(** X3.  Empty sub-fields do not count: a token with a doubled comma, a
    leading comma or a trailing comma yields what it yields without
    it. *)
Theorem empty_fields_ignored (a b : string) :
  no_space a = true -> no_space b = true ->
  parse_coordinates (Some (a ++ ",," ++ b)%string)
  = parse_coordinates (Some (a ++ "," ++ b)%string)
  /\ parse_coordinates (Some ("," ++ a)%string)
     = parse_coordinates (Some a)
  /\ parse_coordinates (Some (a ++ ",")%string)
     = parse_coordinates (Some a).
Proof.
  intros Ha Hb.
  change (a ++ ",," ++ b)%string
    with (a ++ String "," (String "," b))%string.
  change (a ++ "," ++ b)%string with (a ++ String "," b)%string.
  change ("," ++ a)%string with (String "," a).
  change (a ++ ",")%string with (a ++ String "," EmptyString)%string.
  assert (H1 : no_space (a ++ String "," (String "," b)) = true)
    by (apply no_space_comma; [exact Ha | exact Hb]).
  assert (H2 : no_space (a ++ String "," b) = true)
    by (apply no_space_comma; [exact Ha | exact Hb]).
  assert (H3 : no_space (String "," a) = true) by exact Ha.
  assert (H4 : no_space (a ++ String "," EmptyString) = true)
    by (apply no_space_comma; [exact Ha | reflexivity]).
  rewrite (parse_coordinates_token _ H1), (parse_coordinates_token _ H2),
    (parse_coordinates_token _ H3), (parse_coordinates_token _ H4),
    (parse_coordinates_token _ Ha).
  split; [|split]; apply contribution_fields.
  - now rewrite !fields_app, fields_leading_comma.
  - apply fields_leading_comma.
  - rewrite fields_app. apply app_nil_r.
Qed.

(** The token ["1,,2,"] against ["1,2"]. *)
Lemma empty_fields_ignored_witness :
  parse_coordinates (Some ("1," ++ ",," ++ "2")%string)
  = parse_coordinates (Some ("1," ++ "," ++ "2")%string)
  /\ parse_coordinates (Some ("," ++ "1,")%string)
     = parse_coordinates (Some "1,")
  /\ parse_coordinates (Some ("1," ++ ",")%string)
     = parse_coordinates (Some "1,").
Proof. apply empty_fields_ignored; reflexivity. Defined.

(** X4.  The parser yields at most one pair for each token of the text,
    and as many pairs as tokens exactly when every token stands for a
    pair. *)
Theorem parse_coordinates_length (text : string) :
  (List.length (parse_coordinates (Some text))
   <= List.length (split text))%nat
  /\ (List.length (parse_coordinates (Some text)) = List.length (split text)
      <-> forall tok, In tok (split text) -> token_pair tok <> None).
Proof.
  rewrite parse_coordinates_split, flat_map_contribution.
  apply omap_length.
Qed.

(* ===================================================================== *)
(** * Further properties of the properties of a Placemark                 *)
(* ===================================================================== *)

Module PropertiesMore.

(** ** [strip] yields a trimmed string *)

Lemma rstrip_head (c : ascii) (s : string) :
  is_space c = false -> rstrip (String c s) = String c (rstrip s).
Proof. intros Hc. simpl. rewrite Hc. now destruct (rstrip s). Qed.

Lemma rstrip_idempotent (s : string) : rstrip (rstrip s) = rstrip s.
Proof.
  induction s as [|c s IH]; [reflexivity|]. simpl.
  destruct (rstrip s) as [|r0 r] eqn:Hr.
  - destruct (is_space c) eqn:Hc; [reflexivity|]. simpl. now rewrite Hc.
  - change (rstrip (String c (String r0 r))
            = String c (String r0 r)).
    simpl. simpl in IH. destruct (rstrip r) as [|q0 q].
    + destruct (is_space r0); [discriminate IH | now rewrite IH].
    + now rewrite IH.
Qed.

Lemma lstrip_head (s : string) :
  lstrip s = EmptyString
  \/ exists c s', lstrip s = String c s' /\ is_space c = false.
Proof.
  induction s as [|c s IH]; [now left|]. simpl.
  destruct (is_space c) eqn:Hc; [exact IH|]. right. now exists c, s.
Qed.

Lemma strip_trimmed (s : string) : trimmed (strip s).
Proof.
  unfold trimmed, strip.
  destruct (lstrip_head s) as [->|(c & s' & -> & Hc)]; [reflexivity|].
  rewrite (rstrip_head _ _ Hc). simpl lstrip. rewrite Hc.
  rewrite <- (rstrip_head _ _ Hc). apply rstrip_idempotent.
Qed.

Lemma data_value_trimmed (data : Element) : trimmed (data_value data).
Proof.
  unfold data_value.
  destruct (find data (KML_NS ++ "value")) as [v|]; [|reflexivity].
  destruct (text v) as [t|]; [|reflexivity].
  destruct (truthy t); [apply strip_trimmed | reflexivity].
Qed.

(** ** Looking a key up *)

Lemma set_from_data_entry (props : PyDict.dict string) (data : Element) :
  set_from_data props data
  = match data_entry data with
    | Some (k, v) => PyDict.set props k v
    | None => props
    end.
Proof.
  unfold set_from_data, data_entry, data_value.
  destruct (get data "name") as [k|]; [|reflexivity].
  destruct (truthy k); reflexivity.
Qed.

Lemma get_fold_last_value (datas : list Element) (k : string) :
  forall props,
    PyDict.get (List.fold_left set_from_data datas props) k
    = match last_value datas k with
      | Some v => Some v
      | None => PyDict.get props k
      end.
Proof.
  induction datas as [|data datas IH]; intros props; simpl;
    [reflexivity|].
  rewrite IH. destruct (last_value datas k); [reflexivity|].
  rewrite set_from_data_entry.
  destruct (data_entry data) as [[k' v]|]; [|reflexivity].
  destruct (String.eqb k' k) eqn:E.
  - apply String.eqb_eq in E. subst k'. apply get_set_eq.
  - apply get_set_neq. intros ->. now rewrite String.eqb_refl in E.
Qed.

Lemma get_text_children (pm : Element) (k : string) :
  PyDict.get
    (set_from_child
       (set_from_child
          (set_from_child [] "name" (find pm (KML_NS ++ "name")))
          "description" (find pm (KML_NS ++ "description")))
       "styleUrl" (find pm (KML_NS ++ "styleUrl")))
    k
  = if List.existsb (String.eqb k) text_keys then child_text pm k
    else None.
Proof.
  simpl.
  destruct (String.eqb_spec k "name") as [->|Hn].
  - simpl. rewrite !get_set_from_child_neq by discriminate.
    rewrite get_set_from_child_eq. now destruct (child_text pm "name").
  - destruct (String.eqb_spec k "description") as [->|Hd].
    + simpl. rewrite get_set_from_child_neq by discriminate.
      rewrite get_set_from_child_eq.
      destruct (child_text pm "description"); [reflexivity|].
      now rewrite get_set_from_child_neq by discriminate.
    + destruct (String.eqb_spec k "styleUrl") as [->|Hs].
      * simpl. rewrite get_set_from_child_eq.
        destruct (child_text pm "styleUrl"); [reflexivity|].
        now rewrite !get_set_from_child_neq by discriminate.
      * simpl. now rewrite !get_set_from_child_neq by congruence.
Qed.

Lemma last_value_data (datas : list Element) (k v : string) :
  last_value datas k = Some v ->
  exists data,
    In data datas /\ get data "name" = Some k /\ v = data_value data.
Proof.
  induction datas as [|data datas IH]; simpl; [discriminate|].
  destruct (last_value datas k) as [w|].
  - intros [= ->]. destruct (IH eq_refl) as (d & Hd & H).
    exists d. split; [now right | exact H].
  - intros H. exists data. split; [now left|].
    unfold data_entry in H.
    destruct (get data "name") as [k'|]; [|discriminate].
    destruct (truthy k'); [|discriminate].
    destruct (String.eqb k' k) eqn:E; [|discriminate].
    apply String.eqb_eq in E. subst k'. now injection H as <-.
Qed.

(** ** The keys *)

Lemma NoDup_keys_set {V} (d : PyDict.dict V) (k : string) (v : V) :
  NoDup (PyDict.keys d) -> NoDup (PyDict.keys (PyDict.set d k v)).
Proof.
  induction d as [|[k0 v0] d IH]; simpl; intros H.
  - repeat constructor. intros [].
  - apply NoDup_cons_iff in H as [Hk0 Hd].
    destruct (String.eqb k0 k) eqn:E; simpl.
    + apply String.eqb_eq in E. subst k0. now constructor.
    + constructor; [|now apply IH].
      intros Hin. apply keys_set in Hin as [->|Hin]; [|tauto].
      now rewrite String.eqb_refl in E.
Qed.

Lemma NoDup_keys_set_from_child (props : PyDict.dict string) (k : string)
    (el : option Element) :
  NoDup (PyDict.keys props) ->
  NoDup (PyDict.keys (set_from_child props k el)).
Proof.
  intros H. unfold set_from_child.
  destruct el as [e|]; [|exact H].
  destruct (text e) as [t|]; [|exact H].
  destruct (truthy t); [|exact H].
  now apply NoDup_keys_set.
Qed.

Lemma NoDup_keys_fold (datas : list Element) :
  forall props,
    NoDup (PyDict.keys props) ->
    NoDup (PyDict.keys (List.fold_left set_from_data datas props)).
Proof.
  induction datas as [|data datas IH]; intros props H; simpl; [exact H|].
  apply IH. rewrite set_from_data_entry.
  destruct (data_entry data) as [[k v]|]; [|exact H].
  now apply NoDup_keys_set.
Qed.

Lemma keys_set_from_child (props : PyDict.dict string) (k k' : string)
    (el : option Element) :
  In k' (PyDict.keys (set_from_child props k el)) ->
  k' = k \/ In k' (PyDict.keys props).
Proof.
  unfold set_from_child.
  destruct el as [e|]; [|now right].
  destruct (text e) as [t|]; [|now right].
  destruct (truthy t); [|now right].
  apply keys_set.
Qed.

Lemma keys_fold (datas : list Element) (k : string) :
  forall props,
    In k (PyDict.keys (List.fold_left set_from_data datas props)) ->
    In k (PyDict.keys props)
    \/ exists data, In data datas /\ get data "name" = Some k.
Proof.
  induction datas as [|data datas IH]; intros props; simpl;
    [now left|].
  intros H. apply IH in H as [H|(d & Hd & H)].
  - rewrite set_from_data_entry in H. unfold data_entry in H.
    destruct (get data "name") as [k0|] eqn:Hk0; [|now left].
    destruct (truthy k0); [|now left].
    apply keys_set in H as [->|H]; [|now left].
    right. exists data. split; [now left | exact Hk0].
  - right. exists d. split; [now right | exact H].
Qed.

End PropertiesMore.

Import PropertiesMore.

(** X5.  What the properties hold under a key: the value of the last
    [Data] element of that name, when there is one (the trimmed text of
    its [value] child, or the empty string); otherwise, for 'name',
    'description' and 'styleUrl', the trimmed text of the child of that
    name when it has text; otherwise nothing. *)
Theorem properties_lookup (pm : Element) (k : string) :
  PyDict.get (placemark_properties pm) k
  = match last_value (extended_data pm) k with
    | Some v => Some v
    | None =>
        if List.existsb (String.eqb k) text_keys then child_text pm k
        else None
    end.
Proof.
  rewrite placemark_properties_unfold, get_fold_last_value.
  destruct (last_value (extended_data pm) k); [reflexivity|].
  apply get_text_children.
Qed.

(** X6.  No key occurs twice in the properties, and every key is one of
    'name', 'description', 'styleUrl' or the name of a [Data] element of
    the ExtendedData block. *)
Theorem properties_keys_distinct (pm : Element) :
  NoDup (PyDict.keys (placemark_properties pm))
  /\ forall k,
      In k (PyDict.keys (placemark_properties pm)) ->
      In k text_keys
      \/ exists data,
          In data (extended_data pm) /\ get data "name" = Some k.
Proof.
  rewrite placemark_properties_unfold. split.
  - apply NoDup_keys_fold.
    repeat apply NoDup_keys_set_from_child. constructor.
  - intros k H. apply keys_fold in H as [H|H]; [left | now right].
    apply keys_set_from_child in H as [->|H]; [simpl; tauto|].
    apply keys_set_from_child in H as [->|H]; [simpl; tauto|].
    apply keys_set_from_child in H as [->|[]]. simpl. tauto.
Qed.

(** X7.  Every value of the properties is trimmed: it neither starts nor
    ends with whitespace. *)
Theorem properties_values_trimmed (pm : Element) (k v : string) :
  PyDict.get (placemark_properties pm) k = Some v -> trimmed v.
Proof.
  rewrite placemark_properties_unfold, get_fold_last_value.
  destruct (last_value (extended_data pm) k) as [w|] eqn:Hw.
  - intros [= <-]. apply last_value_data in Hw as (data & _ & _ & ->).
    apply data_value_trimmed.
  - rewrite get_text_children.
    destruct (List.existsb (String.eqb k) text_keys); [|discriminate].
    unfold child_text.
    destruct (find pm (KML_NS ++ k)) as [el|]; [|discriminate].
    destruct (text el) as [t|]; [|discriminate].
    destruct (truthy t); [|discriminate].
    intros [= <-]. apply strip_trimmed.
Qed.

(** A name with spaces around it. *)
Lemma properties_values_trimmed_witness : trimmed "Route 5".
Proof.
  apply (properties_values_trimmed
           (kml "Placemark" None [kml "name" (Some "  Route 5 ") []])
           "name").
  vm_compute. reflexivity.
Defined.

(* ===================================================================== *)
(** * Further properties of the geometry                                  *)
(* ===================================================================== *)

Module GeometryMore.

Lemma linestring_coords_pairs (pm : Element) (c : Position) :
  In c (linestring_coords pm) -> exists lon lat, c = [lon; lat].
Proof.
  unfold linestring_coords. destruct (find_desc pm _); [|intros []].
  apply parse_coordinates_pairs.
Qed.

Lemma polygon_coords_pairs (pm : Element) (c : Position) :
  In c (polygon_coords pm) -> exists lon lat, c = [lon; lat].
Proof.
  unfold polygon_coords.
  destruct (find_desc pm _) as [polygon|]; [|intros []].
  destruct (find_desc polygon _) as [outer|]; [|intros []].
  destruct (find_desc outer _) as [el|]; [|intros []].
  apply parse_coordinates_pairs.
Qed.

(** The search finds nothing where no element below has the tag. *)
Lemma find_desc_none (e : Element) (t : string) :
  (forall path d,
      path <> [] -> subtree_at e path = Some d -> tag d <> t) ->
  find_desc e t = None.
Proof.
  intros H. destruct (findall_desc_positions t e) as (ps & _ & Hin & Hmap).
  destruct ps as [|p ps].
  - unfold find_desc. simpl in Hmap.
    now destruct (findall_desc e t).
  - destruct (proj1 (Hin p) (or_introl eq_refl)) as (Hp & d & Hd & Ht).
    now destruct (H p d Hp Hd).
Qed.

(** What the search finds is at the first position, in document order,
    of an element with the tag. *)
Lemma find_desc_first (e : Element) (t : string) (d : Element) :
  find_desc e t = Some d ->
  exists p,
    p <> [] /\ subtree_at e p = Some d /\ tag d = t
    /\ forall q d',
        q <> [] -> subtree_at e q = Some d' -> tag d' = t ->
        q = p \/ path_lt p q.
Proof.
  intros H.
  destruct (findall_desc_positions t e) as (ps & Hs & Hin & Hmap).
  unfold find_desc in H.
  destruct (findall_desc e t) as [|d0 rest]; [discriminate|].
  injection H as ->.
  destruct ps as [|p ps]; [discriminate|].
  simpl in Hmap. injection Hmap as Hp _.
  exists p. destruct (proj1 (Hin p) (or_introl eq_refl))
    as (Hne & d1 & Hd1 & Ht).
  rewrite Hp in Hd1. injection Hd1 as <-.
  repeat split; try assumption.
  intros q d' Hq Hd' Ht'.
  assert (Hq' : In q (p :: ps)) by (apply Hin; split; eauto).
  destruct Hq' as [<-|Hq']; [now left | right].
  apply StronglySorted_inv in Hs as [_ Hall].
  rewrite List.Forall_forall in Hall. now apply Hall.
Qed.

End GeometryMore.

Import GeometryMore.

(** X8.  Every coordinate pair of every feature of the collection is a
    list of two numbers, the longitude and the latitude: no altitude and
    no shorter list reaches the output. *)
Theorem positions_are_pairs (root : Element) (feat : Feature)
    (pos : Position) :
  In feat (convert_features root) ->
  In pos (positions (geometry feat)) ->
  exists lon lat, pos = [lon; lat].
Proof.
  intros Hf. apply convert_features_In in Hf as (pm & _ & Hf).
  rewrite placemark_to_feature_probes in Hf. cbv zeta in Hf.
  destruct (point_coords pm) as [|c cs] eqn:Hp.
  - destruct (linestring_coords pm) as [|l ls] eqn:Hl.
    + destruct (polygon_coords pm) as [|r rs] eqn:Hr; [discriminate|].
      injection Hf as <-. cbn [geometry positions List.concat].
      rewrite app_nil_r, <- Hr. apply polygon_coords_pairs.
    + injection Hf as <-. cbn [geometry positions]. rewrite <- Hl.
      apply linestring_coords_pairs.
  - injection Hf as <-. cbn [geometry positions]. intros [<-|[]].
    apply (point_coords_pairs pm). rewrite Hp. now left.
Qed.

(** The point of [document_two], whose text has an altitude. *)
Lemma positions_are_pairs_witness : exists lon lat, [f1; f2] = [lon; lat].
Proof.
  apply (positions_are_pairs document_two
           (mkFeature [("name", "A")] (Point [f1; f2])));
    vm_compute; left; reflexivity.
Defined.

(** X9.  A Placemark with no Point, LineString or Polygon element at any
    depth below it makes no feature, whatever properties it has. *)
Theorem no_geometry_element (pm : Element) :
  (forall path d,
      path <> [] -> subtree_at pm path = Some d ->
      ~ In (tag d) geometry_tags) ->
  placemark_to_feature pm = None.
Proof.
  intros H.
  assert (Hnone : forall t, In t geometry_tags -> find_desc pm t = None).
  { intros t Ht. apply find_desc_none. intros path d Hp Hd Htag.
    apply (H path d Hp Hd). now rewrite Htag. }
  rewrite placemark_to_feature_probes. cbv zeta.
  unfold point_coords, linestring_coords, polygon_coords.
  rewrite (Hnone (KML_NS ++ "Point")%string) by (simpl; tauto).
  rewrite (Hnone (KML_NS ++ "LineString")%string) by (simpl; tauto).
  rewrite (Hnone (KML_NS ++ "Polygon")%string) by (simpl; tauto).
  reflexivity.
Qed.

(** A Placemark with a name and nothing else. *)
Lemma no_geometry_element_witness :
  placemark_to_feature (kml "Placemark" None [kml "name" (Some "A") []])
  = None.
Proof.
  apply no_geometry_element.
  intros path d Hp H.
  destruct path as [|[|i] q]; [congruence| |].
  - destruct q as [|j q].
    + injection H as <-. vm_compute. intuition discriminate.
    + simpl in H. destruct j; discriminate H.
  - simpl in H. destruct i; discriminate H.
Defined.

(** X10.  The coordinates of a Point feature are the first pair of the
    Point element that comes first in document order below the
    Placemark, at whatever depth it lies. *)
Theorem point_from_first_element (pm : Element) (feat : Feature)
    (c : Position) :
  placemark_to_feature pm = Some feat ->
  geometry feat = Point c ->
  exists p point cs,
    p <> [] /\ subtree_at pm p = Some point
    /\ tag point = (KML_NS ++ "Point")%string
    /\ (forall q d',
           q <> [] -> subtree_at pm q = Some d' ->
           tag d' = (KML_NS ++ "Point")%string ->
           q = p \/ path_lt p q)
    /\ parse_coordinates (coords_text point) = c :: cs.
Proof.
  rewrite placemark_to_feature_probes. cbv zeta.
  destruct (point_coords pm) as [|c0 cs] eqn:Hp.
  - destruct (linestring_coords pm); [|intros [= <-]; discriminate].
    destruct (polygon_coords pm); [discriminate|].
    intros [= <-]. discriminate.
  - intros [= <-]. cbn [geometry]. intros [= <-].
    unfold point_coords in Hp.
    destruct (find_desc pm (KML_NS ++ "Point")) as [point|] eqn:Hf;
      [|discriminate].
    apply find_desc_first in Hf as (p & Hne & Hd & Ht & Hmin).
    exists p, point, cs. repeat split; assumption.
Qed.

(** The point of a Placemark that holds it inside a [MultiGeometry],
    after a line. *)
Lemma point_from_first_element_witness :
  exists p point cs,
    p <> []
    /\ subtree_at
         (kml "Placemark" None
            [kml "MultiGeometry" None
               [kml "LineString" None
                  [kml "coordinates" (Some "0,0 1,1") []];
                kml "Point" None [kml "coordinates" (Some "1,2") []]]])
         p = Some point
    /\ tag point = (KML_NS ++ "Point")%string
    /\ (forall q d',
           q <> [] ->
           subtree_at
             (kml "Placemark" None
                [kml "MultiGeometry" None
                   [kml "LineString" None
                      [kml "coordinates" (Some "0,0 1,1") []];
                    kml "Point" None [kml "coordinates" (Some "1,2") []]]])
             q = Some d' ->
           tag d' = (KML_NS ++ "Point")%string ->
           q = p \/ path_lt p q)
    /\ parse_coordinates (coords_text point) = [f1; f2] :: cs.
Proof.
  apply (point_from_first_element _ (mkFeature [] (Point [f1; f2])));
    vm_compute; reflexivity.
Defined.

(* ===================================================================== *)
(** * Further properties of [convert] and of the entry point              *)
(* ===================================================================== *)

Module ConvertMore.

Lemma omap_app_list {A B} (f : A -> option B) (l1 l2 : list A) :
  omap f (l1 ++ l2) = omap f l1 ++ omap f l2.
Proof.
  induction l1 as [|a l1 IH]; [reflexivity|].
  change ((a :: l1) ++ l2) with (a :: (l1 ++ l2)).
  rewrite !omap_cons, IH. now destruct (f a).
Qed.

Lemma omap_flat_map {A B C} (f : B -> option C) (g : A -> list B)
    (l : list A) :
  omap f (List.flat_map g l) = List.flat_map (fun a => omap f (g a)) l.
Proof.
  induction l as [|a l IH]; [reflexivity|]. simpl.
  now rewrite omap_app_list, IH.
Qed.

(** The features [iter] leads to are those of the subtree. *)
Lemma omap_iter (c : Element) :
  omap placemark_to_feature (iter (KML_NS ++ "Placemark") c)
  = subtree_features c.
Proof.
  rewrite iter_unfold, omap_app_list. unfold subtree_features.
  rewrite convert_features_omap. f_equal.
  destruct (has_tag (KML_NS ++ "Placemark") c); [|reflexivity].
  rewrite omap_cons. now destruct (placemark_to_feature c).
Qed.

Lemma convert_features_flat_map (root : Element) :
  convert_features root
  = List.flat_map subtree_features (children root).
Proof.
  rewrite convert_features_omap. unfold findall_desc.
  rewrite omap_flat_map. apply List.flat_map_ext. intros c.
  apply omap_iter.
Qed.

Lemma has_tag_false (t : string) (e : Element) :
  tag e <> t -> has_tag t e = false.
Proof.
  intros H. unfold has_tag. destruct (String.eqb_spec (tag e) t);
    [contradiction | reflexivity].
Qed.

End ConvertMore.

Import ConvertMore.

(** X11.  The features of a document are those of the subtrees of the
    children of its root, one child after the other; the features of a
    subtree are the one of its top element, when that is a Placemark with
    a usable geometry, followed by those of what lies below it. *)
Theorem convert_features_children (root : Element) :
  convert_features root
  = List.flat_map
      (fun c =>
         (if has_tag (KML_NS ++ "Placemark") c
          then match placemark_to_feature c with
               | Some f => [f]
               | None => []
               end
          else [])
         ++ convert_features c)
      (children root).
Proof. apply convert_features_flat_map. Qed.

(** X12.  Containers are transparent: putting a run of children of the
    root into an element of their own that is not a Placemark, whatever
    its tag, attributes and text, changes no feature and no order. *)
Theorem container_transparent (t : string) (a : PyDict.dict string)
    (x : option string) (before inside after : list Element)
    (folder : Element) :
  tag folder <> (KML_NS ++ "Placemark")%string ->
  children folder = inside ->
  convert_features (mkElement t a x (before ++ [folder] ++ after))
  = convert_features (mkElement t a x (before ++ inside ++ after)).
Proof.
  intros Ht Hc. rewrite !convert_features_flat_map. cbn [children].
  rewrite !List.flat_map_app. f_equal. f_equal.
  simpl. rewrite app_nil_r. unfold subtree_features at 1.
  rewrite (has_tag_false _ _ Ht), convert_features_flat_map, Hc.
  reflexivity.
Qed.

(** The two Placemarks of a document, loose and in a folder. *)
Lemma container_transparent_witness :
  convert_features
    (mkElement "kml" [] None
       ([placemark_A]
        ++ [kml "Folder" (Some "x") [placemark_polygon; placemark_A]]
        ++ [placemark_empty_point]))
  = convert_features
      (mkElement "kml" [] None
         ([placemark_A] ++ [placemark_polygon; placemark_A]
          ++ [placemark_empty_point])).
Proof.
  apply container_transparent; [vm_compute; discriminate | reflexivity].
Defined.

(** X13.  There are at most as many features as Placemark elements below
    the root, and as many exactly when each of them has a usable
    geometry. *)
Theorem convert_features_length (root : Element) :
  (List.length (convert_features root)
   <= List.length (findall_desc root (KML_NS ++ "Placemark")))%nat
  /\ (List.length (convert_features root)
      = List.length (findall_desc root (KML_NS ++ "Placemark"))
      <-> forall pm,
          In pm (findall_desc root (KML_NS ++ "Placemark")) -> usable pm).
Proof.
  rewrite convert_features_omap.
  destruct (omap_length placemark_to_feature
              (findall_desc root (KML_NS ++ "Placemark"))) as [Hle Heq].
  split; [exact Hle|]. rewrite Heq. split; intros H pm Hpm.
  - apply placemark_to_feature_usable. now apply H.
  - apply placemark_to_feature_usable. now apply H.
Qed.


(** The three parts of the statement on the exit status, on one branch
    of the script: what contradicts the branch is closed. *)
Ltac status_part :=
  intros;
  repeat match goal with
         | H : _ /\ _ |- _ => destruct H
         | H : exists _, _ |- _ => destruct H
         end;
  try discriminate; try lia; try congruence.

Ltac status_leaf :=
  cbn [exit_code];
  split; [|split];
  [ split; status_part
  | split; status_part
  | first [ now left | now (right; left) | now (right; right; left)
          | now (right; right; right) ] ].






(** The count is printed in decimal. *)
Example decimal_examples :
  List.map decimal [0; 7; 42; 1305]%nat = ["0"; "7"; "42"; "1305"].
Proof. vm_compute. reflexivity. Qed.

(** Runs of the script: too few arguments; an input that is not there; a
    conversion; an output that cannot be opened; a closing line that is
    lost after the output has been written. *)
Example main_usage :
  main (fun _ => Some document_two) (fun _ => "{}")
    (fun _ _ => Written) (fun _ => true) (fun _ => Delivered)
    ["kml_to_geojson.py"; "in.kml"] {["in.kml" := "<kml/>"]}
  = mkOutcome
      ("Usage: kml_to_geojson.py INPUT.kml OUTPUT.geojson" ++ newline)
      2 {["in.kml" := "<kml/>"]}.
Proof. reflexivity. Qed.

Example main_input_missing :
  main (fun _ => Some document_two) (fun _ => "{}")
    (fun _ _ => Written) (fun _ => false) (fun _ => Delivered)
    ["kml_to_geojson.py"; "other.kml"; "out.geojson"]
    {["in.kml" := "<kml/>"]}
  = mkOutcome ("Input file not found: other.kml" ++ newline)
      1 {["in.kml" := "<kml/>"]}.
Proof. reflexivity. Qed.

Example main_converted :
  stdout (main (fun _ => Some document_two) (fun _ => "{}")
            (fun _ _ => Written) (fun _ => true) (fun _ => Delivered)
            ["kml_to_geojson.py"; "in.kml"; "out.geojson"]
            {["in.kml" := "<kml/>"]})
  = ("Converted 2 features to out.geojson" ++ newline)%string.
Proof. vm_compute. reflexivity. Qed.

Example main_output_unwritable :
  main (fun _ => Some document_two) (fun _ => "{}")
    (fun _ _ => CannotOpen) (fun _ => true) (fun _ => Delivered)
    ["kml_to_geojson.py"; "in.kml"; "nodir/out.geojson"]
    {["in.kml" := "<kml/>"]}
  = mkOutcome EmptyString 1 {["in.kml" := "<kml/>"]}.
Proof. reflexivity. Qed.

Example main_print_lost :
  main (fun _ => Some document_two) (fun _ => "{}")
    (fun _ _ => Written) (fun _ => true) (fun _ => LostAtExit EmptyString)
    ["kml_to_geojson.py"; "in.kml"; "out.geojson"]
    {["in.kml" := "<kml/>"]}
  = mkOutcome EmptyString 120
      (<["out.geojson" := "{}"]> {["in.kml" := "<kml/>"]}).
Proof. reflexivity. Qed.

(* ===================================================================== *)
(** * Geometry inside other elements                                      *)
(* ===================================================================== *)

Module NestingFacts.

(** The search looks through an element with another tag as if its
    children stood in its place. *)
Lemma findall_desc_flatten (g t : string) (a : PyDict.dict string)
    (x : option string) (before inside after : list Element)
    (wrapper : Element) :
  tag wrapper <> g ->
  children wrapper = inside ->
  findall_desc (mkElement t a x (before ++ [wrapper] ++ after)) g
  = findall_desc (mkElement t a x (before ++ inside ++ after)) g.
Proof.
  intros Ht Hc. unfold findall_desc. cbn [children].
  rewrite !List.flat_map_app. f_equal. f_equal.
  simpl. rewrite app_nil_r, iter_unfold, (has_tag_false _ _ Ht), Hc.
  reflexivity.
Qed.

Lemma find_desc_flatten (g t : string) (a : PyDict.dict string)
    (x : option string) (before inside after : list Element)
    (wrapper : Element) :
  tag wrapper <> g ->
  children wrapper = inside ->
  find_desc (mkElement t a x (before ++ [wrapper] ++ after)) g
  = find_desc (mkElement t a x (before ++ inside ++ after)) g.
Proof.
  intros Ht Hc. unfold find_desc.
  now rewrite (findall_desc_flatten g t a x before inside after wrapper).
Qed.

(** The geometry of the feature in terms of the three probes. *)
Lemma geometry_probes (pm : Element) :
  option_map geometry (placemark_to_feature pm)
  = match point_coords pm with
    | c0 :: _ => Some (Point c0)
    | [] =>
        match linestring_coords pm with
        | (_ :: _) as coords => Some (LineString coords)
        | [] =>
            match polygon_coords pm with
            | (_ :: _) as coords => Some (Polygon [coords])
            | [] => None
            end
        end
    end.
Proof.
  rewrite placemark_to_feature_probes. cbv zeta.
  destruct (point_coords pm); [|reflexivity].
  destruct (linestring_coords pm); [|reflexivity].
  destruct (polygon_coords pm); reflexivity.
Qed.

End NestingFacts.

Import NestingFacts.

(** X18.  For the geometry, a child of the Placemark that is not itself
    a Point, a LineString or a Polygon can be replaced by its own
    children: a Placemark whose geometry elements are the children of a
    [MultiGeometry] child, say, has the geometry it would have with them
    as its own children in that place. *)
Theorem geometry_container_transparent (t : string)
    (a : PyDict.dict string) (x : option string)
    (before inside after : list Element) (wrapper : Element) :
  ~ In (tag wrapper) geometry_tags ->
  children wrapper = inside ->
  option_map geometry
    (placemark_to_feature (mkElement t a x (before ++ [wrapper] ++ after)))
  = option_map geometry
      (placemark_to_feature (mkElement t a x (before ++ inside ++ after))).
Proof.
  intros Ht Hc. rewrite !geometry_probes.
  unfold point_coords, linestring_coords, polygon_coords.
  rewrite !(fun g H =>
              find_desc_flatten g t a x before inside after wrapper H Hc).
  - reflexivity.
  - intros E. apply Ht. rewrite E. simpl. tauto.
  - intros E. apply Ht. rewrite E. simpl. tauto.
  - intros E. apply Ht. rewrite E. simpl. tauto.
Qed.

(** A point and a line in a [MultiGeometry], and the same loose. *)
Lemma geometry_container_transparent_witness :
  option_map geometry
    (placemark_to_feature
       (mkElement (KML_NS ++ "Placemark") [] None
          ([kml "name" (Some "A") []]
           ++ [kml "MultiGeometry" None
                 [kml "LineString" None
                    [kml "coordinates" (Some "0,0 1,1") []];
                  kml "Point" None [kml "coordinates" (Some "1,2") []]]]
           ++ [])))
  = option_map geometry
      (placemark_to_feature
         (mkElement (KML_NS ++ "Placemark") [] None
            ([kml "name" (Some "A") []]
             ++ [kml "LineString" None
                   [kml "coordinates" (Some "0,0 1,1") []];
                 kml "Point" None [kml "coordinates" (Some "1,2") []]]
             ++ []))).
Proof.
  apply geometry_container_transparent; [|reflexivity].
  vm_compute. intuition discriminate.
Defined.
